(** * data_utils: tokenizing, vocabularies and token-id files

    A shallow embedding of [data_utils.py].  Python [bytes] values are
    [string]s (a Rocq [ascii] is one 8-bit byte), the counting dictionary
    of [create_vocabulary] is an association list that keeps insertion
    order (the order [sorted] enumerates it in), the lookup dictionary of
    the encoder is a [gmap], and the file system reached through
    [gfile] is a finite map from paths to file contents. *)

From Stdlib Require Import ZArith Ascii DecimalString.
From stdpp Require Import base option list sorting gmap strings.

Local Open Scope Z_scope.

(** ** Byte strings *)

Module Bytes.

(** The join of [l] on the empty separator. *)
Definition join_empty (l : list string) : string :=
  foldr String.append "" l.

(** [sep.join(l)] *)
Fixpoint join (sep : string) (l : list string) : string :=
  match l with
  | [] => ""
  | [x] => x
  | x :: rest => x +:+ sep +:+ join sep rest
  end.

(** ASCII whitespace, the bytes that [bytes.split()] and [bytes.strip()]
    treat as blank: space, tab, line feed, carriage return, vertical tab
    and form feed. *)
Definition isspace (c : ascii) : bool :=
  let n := nat_of_ascii c in
  (n =? 32)%nat || ((9 <=? n)%nat && (n <=? 13)%nat).

(** [\d] of a bytes pattern: the ten ASCII digits. *)
Definition isdigit (c : ascii) : bool :=
  let n := nat_of_ascii c in
  (48 <=? n)%nat && (n <=? 57)%nat.

Definition newline : ascii := "010"%char.
Definition carriage_return : ascii := "013"%char.

(** The one-byte strings holding a line feed and a carriage return. *)
Definition LF : string := String newline EmptyString.
Definition CR : string := String carriage_return EmptyString.

Fixpoint lstrip (s : string) : string :=
  match s with
  | String c s' => if isspace c then lstrip s' else s
  | EmptyString => EmptyString
  end.

Fixpoint rstrip (s : string) : string :=
  match s with
  | String c s' =>
      match rstrip s' with
      | EmptyString => if isspace c then EmptyString else String c EmptyString
      | r => String c r
      end
  | EmptyString => EmptyString
  end.

(** [s.strip()] *)
Definition strip (s : string) : string := lstrip (rstrip s).

(** [s.split()]: the maximal runs of non-blank bytes, in order.  The
    auxiliary function carries the run being read. *)
Fixpoint split_run (s : string) : string * list string :=
  match s with
  | EmptyString => (EmptyString, [])
  | String c s' =>
      let '(run, frags) := split_run s' in
      if isspace c
      then (EmptyString, if decide (run = EmptyString) then frags else run :: frags)
      else (String c run, frags)
  end.

Definition split (s : string) : list string :=
  let '(run, frags) := split_run s in
  if decide (run = EmptyString) then frags else run :: frags.

(** The lines of a file as the [readline] of a [GFile] yields them.  The
    reader ends a line at each line feed and keeps the line feed; it
    drops every carriage return; what follows the last line feed is a
    last line without terminator when any byte of it is left, so a tail
    of carriage returns alone gives no line. *)
Fixpoint readlines (s : string) : list string :=
  match s with
  | EmptyString => []
  | String c s' =>
      if Ascii.eqb c newline then String c EmptyString :: readlines s'
      else if Ascii.eqb c carriage_return then readlines s'
      else match readlines s' with
           | [] => [String c EmptyString]
           | l :: ls => String c l :: ls
           end
  end.

(** The bytes of [s] that satisfy [p], and whether all of them do. *)
Fixpoint filter (p : ascii -> bool) (s : string) : string :=
  match s with
  | EmptyString => EmptyString
  | String c s' => if p c then String c (filter p s') else filter p s'
  end.

Fixpoint forallb (p : ascii -> bool) (s : string) : bool :=
  match s with
  | EmptyString => true
  | String c s' => p c && forallb p s'
  end.

Definition notspace (c : ascii) : bool := negb (isspace c).

(** A byte that is neither a line feed nor a carriage return: the line
    reader hands it on as it is. *)
Definition not_newline (c : ascii) : bool :=
  negb (Ascii.eqb c newline || Ascii.eqb c carriage_return).

(** [str(n)] for an integer. *)
Definition str (n : Z) : string := NilZero.string_of_int (Z.to_int n).

End Bytes.

(** ** Module constants *)

Definition _PAD : string := "_PAD".
Definition _GO : string := "_GO".
Definition _EOS : string := "_EOS".
Definition _UNK : string := "_UNK".
Definition _START_VOCAB : list string := [_PAD; _GO; _EOS; _UNK].

Definition PAD_ID : Z := 0.
Definition GO_ID : Z := 1.
Definition EOS_ID : Z := 2.
Definition UNK_ID : Z := 3.

(** The character class of [_WORD_SPLIT]: full stop, comma, exclamation
    and question mark, double quote (byte 34), apostrophe, colon,
    semicolon and the two round brackets. *)
Definition _WORD_SPLIT_class : list ascii :=
  ["."; ","; "!"; "?"; "034"; "'"; ":"; ";"; ")"; "("]%char.

Definition _WORD_SPLIT_match (c : ascii) : bool :=
  bool_decide (c ∈ _WORD_SPLIT_class).

(** [_WORD_SPLIT.split(s)]: the pattern is one capturing group that matches
    a single byte, so the result alternates the text between matches with
    the matched bytes themselves, empty pieces included. *)
Fixpoint _WORD_SPLIT_split (s : string) : list string :=
  match s with
  | EmptyString => [EmptyString]
  | String c s' =>
      if _WORD_SPLIT_match c
      then EmptyString :: String c EmptyString :: _WORD_SPLIT_split s'
      else match _WORD_SPLIT_split s' with
           | piece :: pieces => String c piece :: pieces
           | [] => [String c EmptyString]
           end
  end.

(** [_DIGIT_RE.sub] with replacement byte 0 (the digit zero, byte 48). *)
Fixpoint _DIGIT_RE_sub0 (w : string) : string :=
  match w with
  | EmptyString => EmptyString
  | String c w' =>
      String (if Bytes.isdigit c then "0"%char else c) (_DIGIT_RE_sub0 w')
  end.

(** ** Tokenizer *)

Definition nonempty (w : string) : bool :=
  negb (bool_decide (w = EmptyString)).

Definition basic_tokenizer (sentence : string) : list string :=
  let words :=
    foldl (fun words space_separated_fragment =>
             words ++ _WORD_SPLIT_split space_separated_fragment)
          [] (Bytes.split (Bytes.strip sentence)) in
  filter (fun w => nonempty w = true) words.

(** A tokenizer override is any function from a line to its tokens;
    [None] stands for the default argument. *)
Definition tokenizer_t : Type := string -> list string.

(** ** The counting dictionary

    A Python dictionary enumerates its keys in insertion order, and
    [sorted] is stable, so the order in which words were first seen
    decides ties.  The dictionary is therefore a list of entries: a new
    key goes to the end, an update keeps the key in its place. *)

Module OrderedDict.

Definition t : Type := list (string * nat).

Fixpoint get (k : string) (d : t) : option nat :=
  match d with
  | [] => None
  | (k', v) :: d' => if decide (k' = k) then Some v else get k d'
  end.

(** [k in d] *)
Definition contains (k : string) (d : t) : bool :=
  bool_decide (is_Some (get k d)).

(** [d[k] = v] *)
Fixpoint set (k : string) (v : nat) (d : t) : t :=
  match d with
  | [] => [(k, v)]
  | (k', v') :: d' =>
      if decide (k' = k) then (k', v) :: d' else (k', v') :: set k v d'
  end.

(** Iterating over [d] yields its keys. *)
Definition keys (d : t) : list string := map fst d.

End OrderedDict.

(** [sorted(l, key=key, reverse=True)]: a stable sort into descending key
    order, elements of equal key staying in the order of [l]. *)
Fixpoint insert_reverse {A} (key : A -> nat) (x : A) (l : list A) : list A :=
  match l with
  | [] => [x]
  | y :: l' =>
      if (key y <=? key x)%nat then x :: l else y :: insert_reverse key x l'
  end.

Definition sorted_reverse {A} (key : A -> nat) (l : list A) : list A :=
  foldr (insert_reverse key) [] l.

(** Descending order of keys: [x] may stand before [y]. *)
Definition key_ge {A} (key : A -> nat) (x y : A) : Prop :=
  (key y <= key x)%nat.

(** [l[:n]]; a negative [n] counts from the end. *)
Definition slice_to {A} (n : Z) (l : list A) : list A :=
  if 0 <=? n then take (Z.to_nat n) l
  else take (length l - Z.to_nat (- n)) l.

(** ** Files

    The file system is a finite map from paths to contents.  Reading a
    missing file raises [NotFoundError].  TensorFlow's [GFile] opens
    lazily: a file opened for writing is created by its first [write], so
    a writer closed without a write leaves no file behind, whereas
    Python's built-in [open] creates the empty file at once.  The flag
    [open_creates] selects between the two, and the results below hold
    for either.  A file can only be created in a directory that exists:
    [parent_exists path] tells whether the directory that is to hold the
    file at [path] does.  No function here makes or removes a directory,
    so this is the same throughout a run. *)

(** Every directory is there. *)
Definition all_dirs (path : string) : bool := true.

(** Only the working directory is there: a file can be created at the
    paths without a slash. *)
Definition in_cwd (path : string) : bool :=
  Bytes.forallb (fun c => negb (Ascii.eqb c "/")) path.

Inductive exn : Type :=
| NotFoundError (path : string)
| ValueError (msg arg : string).

Inductive result (A : Type) : Type :=
| Ok (a : A)
| Raise (e : exn).
Arguments Ok {A} a.
Arguments Raise {A} e.

Module gfile.

Definition Exists (fs : gmap string string) (path : string) : bool :=
  bool_decide (is_Some (fs !! path)).

(** The lines that iterating over (or [readlines] on) a reader yields. *)
Definition lines (fs : gmap string string) (path : string)
  : result (list string) :=
  match fs !! path with
  | Some content => Ok (Bytes.readlines content)
  | None => Raise (NotFoundError path)
  end.

(** A writer: its path and whether the file has been created yet. *)
Record writer : Type := { w_name : string; w_created : bool }.

(** Opening for writing.  Where opening creates the file, it raises
    when the directory that is to hold the file is missing. *)
Definition GFile_w (open_creates : bool) (parent_exists : string -> bool)
    (path : string) (fs : gmap string string)
  : result writer * gmap string string :=
  if open_creates then
    if parent_exists path
    then (Ok {| w_name := path; w_created := true |},
          <[path := EmptyString]> fs)
    else (Raise (NotFoundError path), fs)
  else (Ok {| w_name := path; w_created := false |}, fs).

(** Mode [w]: the first write creates or replaces the file, and raises
    when the directory that is to hold it is missing; later writes
    append.  After an exception nothing more is written. *)
Definition write (parent_exists : string -> bool) (data : string)
    (st : result writer * gmap string string)
  : result writer * gmap string string :=
  match st with
  | (Raise e, fs) => (Raise e, fs)
  | (Ok h, fs) =>
      if w_created h
      then (Ok h,
            <[w_name h := default EmptyString (fs !! w_name h) +:+ data]> fs)
      else if parent_exists (w_name h)
      then (Ok {| w_name := w_name h; w_created := true |},
            <[w_name h := data]> fs)
      else (Raise (NotFoundError (w_name h)), fs)
  end.

(** Leaving the [with] block of a writer: the file is closed, an
    exception raised inside goes on to the caller. *)
Definition close (st : result writer * gmap string string)
  : result unit * gmap string string :=
  match st with
  | (Ok _, fs) => (Ok tt, fs)
  | (Raise e, fs) => (Raise e, fs)
  end.

End gfile.

(** ** Vocabulary builder *)

Definition normalize (normalize_digits : bool) (w : string) : string :=
  if normalize_digits then _DIGIT_RE_sub0 w else w.

Definition tokenize (tokenizer : option tokenizer_t) (line : string)
  : list string :=
  match tokenizer with
  | Some tokenizer => tokenizer line
  | None => basic_tokenizer line
  end.

(** The body of the inner loop over the tokens of a line. *)
Definition count_word (normalize_digits : bool)
    (vocab : OrderedDict.t) (w : string) : OrderedDict.t :=
  let word := normalize normalize_digits w in
  if OrderedDict.contains word vocab
  then OrderedDict.set word (default 0%nat (OrderedDict.get word vocab) + 1)%nat vocab
  else OrderedDict.set word 1%nat vocab.

(** The body of the loop over the lines of the corpus. *)
Definition count_line (tokenizer : option tokenizer_t) (normalize_digits : bool)
    (vocab : OrderedDict.t) (line : string) : OrderedDict.t :=
  foldl (count_word normalize_digits) vocab (tokenize tokenizer line).

Definition count_corpus (tokenizer : option tokenizer_t)
    (normalize_digits : bool) (corpus : list string) : OrderedDict.t :=
  foldl (count_line tokenizer normalize_digits) [] corpus.

(** The words counted, in reading order, and how often [word] is among
    them: what the counts in [vocab] are compared with below. *)
Definition corpus_words (tokenizer : option tokenizer_t)
    (normalize_digits : bool) (corpus : list string) : list string :=
  concat (map (fun line => map (normalize normalize_digits) (tokenize tokenizer line))
              corpus).

Definition occurrences (tokenizer : option tokenizer_t)
    (normalize_digits : bool) (corpus : list string) (word : string) : nat :=
  length (filter (fun w => w = word)
                 (corpus_words tokenizer normalize_digits corpus)).

(** [vocab.get], the sort key; every sorted word is a key of [vocab]. *)
Definition vocab_get (vocab : OrderedDict.t) (w : string) : nat :=
  default 0%nat (OrderedDict.get w vocab).

(** The value of [vocab_list] when it is written out. *)
Definition vocab_list_of (vocab : OrderedDict.t) (max_vocabulary_size : Z)
  : list string :=
  let vocab_list :=
    _START_VOCAB ++ sorted_reverse (vocab_get vocab) (OrderedDict.keys vocab) in
  if Z.of_nat (length vocab_list) >? max_vocabulary_size
  then slice_to max_vocabulary_size vocab_list
  else vocab_list.

Definition create_vocabulary (open_creates : bool)
    (parent_exists : string -> bool)
    (vocabulary_path data_path : string) (max_vocabulary_size : Z)
    (tokenizer : option tokenizer_t) (normalize_digits : bool)
    (fs : gmap string string) : result unit * gmap string string :=
  if negb (gfile.Exists fs vocabulary_path) then
    match gfile.lines fs data_path with
    | Raise e => (Raise e, fs)
    | Ok corpus =>
        let vocab := count_corpus tokenizer normalize_digits corpus in
        let vocab_list := vocab_list_of vocab max_vocabulary_size in
        let vocab_file :=
          gfile.GFile_w open_creates parent_exists vocabulary_path fs in
        gfile.close
          (foldl (fun st w => gfile.write parent_exists (w +:+ Bytes.LF) st)
                 vocab_file vocab_list)
    end
  else (Ok tt, fs).

(** ** Vocabulary index *)

(** [dict(pairs)]: a later pair replaces an earlier one with the same key. *)
Definition dict (pairs : list (string * Z)) : gmap string Z :=
  foldl (fun d kv => <[kv.1 := kv.2]> d) ∅ pairs.

(** [enumerate(l)] *)
Definition enumerate {A} (l : list A) : list (Z * A) :=
  imap (fun y x => (Z.of_nat y, x)) l.

Definition not_found_msg : string := "Vocabulary file %s not found.".

Definition initialize_vocabulary (fs : gmap string string)
    (vocabulary_path : string) : result (gmap string Z * list string) :=
  if gfile.Exists fs vocabulary_path then
    match gfile.lines fs vocabulary_path with
    | Raise e => Raise e
    | Ok rev_vocab =>
        let rev_vocab := map Bytes.strip rev_vocab in
        let vocab := dict (map (fun yx => (yx.2, yx.1)) (enumerate rev_vocab)) in
        Ok (vocab, rev_vocab)
    end
  else Raise (ValueError not_found_msg vocabulary_path).

(** ** Encoder *)

Definition sentence_to_token_ids (sentence : string)
    (vocabulary : gmap string Z) (tokenizer : option tokenizer_t)
    (normalize_digits : bool) : list Z :=
  let words :=
    match tokenizer with
    | Some tokenizer => tokenizer sentence
    | None => basic_tokenizer sentence
    end in
  if negb normalize_digits
  then map (fun w => default UNK_ID (vocabulary !! w)) words
  else map (fun w => default UNK_ID (vocabulary !! _DIGIT_RE_sub0 w)) words.

(** The text written for one line of the corpus. *)
Definition ids_line (vocab : gmap string Z) (tokenizer : option tokenizer_t)
    (normalize_digits : bool) (line : string) : string :=
  let token_ids := sentence_to_token_ids line vocab tokenizer normalize_digits in
  Bytes.join " " (map Bytes.str token_ids) +:+ Bytes.LF.

Definition data_to_token_ids (open_creates : bool)
    (parent_exists : string -> bool)
    (data_path target_path vocabulary_path : string)
    (tokenizer : option tokenizer_t) (normalize_digits : bool)
    (fs : gmap string string) : result unit * gmap string string :=
  if negb (gfile.Exists fs target_path) then
    match initialize_vocabulary fs vocabulary_path with
    | Raise e => (Raise e, fs)
    | Ok (vocab, _) =>
        match gfile.lines fs data_path with
        | Raise e => (Raise e, fs)
        | Ok data =>
            let tokens_file :=
              gfile.GFile_w open_creates parent_exists target_path fs in
            gfile.close
              (foldl (fun st line =>
                        gfile.write parent_exists
                          (ids_line vocab tokenizer normalize_digits line) st)
                     tokens_file data)
        end
    end
  else (Ok tt, fs).

(** The lines the reader gives for a file, none when there is no file. *)
Definition file_lines (fs : gmap string string) (path : string) : list string :=
  match fs !! path with
  | Some content => Bytes.readlines content
  | None => []
  end.

(** ** Pipeline

    [prepare_data] runs six steps on the file system one after the other;
    an exception raised by a step ends the run there. *)

(** Sequencing of two effectful steps with exception propagation. *)
Definition and_then {A B}
    (step : gmap string string -> result A * gmap string string)
    (next : A -> gmap string string -> result B * gmap string string)
    (fs : gmap string string) : result B * gmap string string :=
  match step fs with
  | (Ok a, fs') => next a fs'
  | (Raise e, fs') => (Raise e, fs')
  end.

Definition ret {A} (a : A) (fs : gmap string string)
  : result A * gmap string string := (Ok a, fs).

(** Whether [s] starts, or ends, with the byte [c]. *)
Definition startswith (c : ascii) (s : string) : bool :=
  match s with
  | String d _ => Ascii.eqb d c
  | EmptyString => false
  end.

Fixpoint endswith (c : ascii) (s : string) : bool :=
  match s with
  | EmptyString => false
  | String d EmptyString => Ascii.eqb d c
  | String _ s' => endswith c s'
  end.

(** [os.path.join(a, b)] on a POSIX system: an absolute [b] replaces [a];
    otherwise a slash is put between them unless [a] is empty or ends
    with one. *)
Definition os_path_join (a b : string) : string :=
  if startswith "/" b then b
  else if bool_decide (a = EmptyString) || endswith "/" a then a +:+ b
  else a +:+ "/" +:+ b.

(** The names built with the [%d] format. *)
Definition vocab_to_name (size : Z) : string :=
  "vocab" +:+ Bytes.str size +:+ ".to".
Definition vocab_from_name (size : Z) : string :=
  "vocab" +:+ Bytes.str size +:+ ".from".
Definition ids_suffix (size : Z) : string := ".ids" +:+ Bytes.str size.

Definition prepare_data (open_creates : bool)
    (parent_exists : string -> bool)
    (data_dir from_train_path to_train_path from_dev_path to_dev_path : string)
    (from_vocabulary_size to_vocabulary_size : Z)
    (tokenizer : option tokenizer_t)
  : gmap string string ->
    result (string * string * string * string * string * string)
    * gmap string string :=
  let to_vocab_path := os_path_join data_dir (vocab_to_name to_vocabulary_size) in
  let from_vocab_path :=
    os_path_join data_dir (vocab_from_name from_vocabulary_size) in
  let to_train_ids_path := to_train_path +:+ ids_suffix to_vocabulary_size in
  let from_train_ids_path := from_train_path +:+ ids_suffix from_vocabulary_size in
  let to_dev_ids_path := to_dev_path +:+ ids_suffix to_vocabulary_size in
  let from_dev_ids_path := from_dev_path +:+ ids_suffix from_vocabulary_size in
  and_then (create_vocabulary open_creates parent_exists to_vocab_path to_train_path
              to_vocabulary_size tokenizer true) (fun _ =>
  and_then (create_vocabulary open_creates parent_exists from_vocab_path from_train_path
              from_vocabulary_size tokenizer true) (fun _ =>
  and_then (data_to_token_ids open_creates parent_exists to_train_path to_train_ids_path
              to_vocab_path tokenizer true) (fun _ =>
  and_then (data_to_token_ids open_creates parent_exists from_train_path from_train_ids_path
              from_vocab_path tokenizer true) (fun _ =>
  and_then (data_to_token_ids open_creates parent_exists to_dev_path to_dev_ids_path
              to_vocab_path tokenizer true) (fun _ =>
  and_then (data_to_token_ids open_creates parent_exists from_dev_path from_dev_ids_path
              from_vocab_path tokenizer true) (fun _ =>
  ret (from_train_ids_path, to_train_ids_path,
       from_dev_ids_path, to_dev_ids_path,
       from_vocab_path, to_vocab_path))))))).

(** The six paths [prepare_data] may write. *)
Definition prepare_data_outputs
    (data_dir from_train_path to_train_path from_dev_path to_dev_path : string)
    (from_vocabulary_size to_vocabulary_size : Z) : list string :=
  [ os_path_join data_dir (vocab_to_name to_vocabulary_size);
    os_path_join data_dir (vocab_from_name from_vocabulary_size);
    to_train_path +:+ ids_suffix to_vocabulary_size;
    from_train_path +:+ ids_suffix from_vocabulary_size;
    to_dev_path +:+ ids_suffix to_vocabulary_size;
    from_dev_path +:+ ids_suffix from_vocabulary_size ].

(** A step that caches its output.  It keeps every file that is there;
    once it has succeeded, it succeeds with the same value and without
    any change in every later state, that is, in every state that keeps
    the files it left; and once it has failed, it fails in the same way
    in the state it left. *)
Record cache_stable {A}
    (step : gmap string string -> result A * gmap string string) : Prop := {
  stable_keeps : forall fs, fs ⊆ (step fs).2;
  stable_done : forall fs a fs1 fs',
      step fs = (Ok a, fs1) -> fs1 ⊆ fs' -> step fs' = (Ok a, fs');
  stable_failed : forall fs e fs1,
      step fs = (Raise e, fs1) -> step fs1 = (Raise e, fs1)
}.

(** A byte that [_WORD_SPLIT] does not match. *)
Definition not_split (c : ascii) : bool := negb (_WORD_SPLIT_match c).

(** The shape of a token of [basic_tokenizer]: one matched byte, or a
    non-empty run of unmatched ones; blank-free either way. *)
Definition token_shape (w : string) : Prop :=
  w <> EmptyString /\ Bytes.forallb Bytes.notspace w = true /\
  (Bytes.forallb not_split w = true \/
   exists c, _WORD_SPLIT_match c = true /\ w = String c EmptyString).

(** * Properties *)

(** ** Byte strings *)

Section bytes_facts.
Implicit Types (s t : string) (l : list string) (p : ascii -> bool).

Lemma bytes_app_nil t : EmptyString +:+ t = t.
Proof. reflexivity. Qed.

Lemma bytes_app_cons c s t : String c s +:+ t = String c (s +:+ t).
Proof. reflexivity. Qed.

Lemma bytes_app_empty_r s : s +:+ EmptyString = s.
Proof. induction s as [|c s IH]; [done | by rewrite bytes_app_cons, IH]. Qed.

Lemma bytes_app_assoc s t u : (s +:+ t) +:+ u = s +:+ t +:+ u.
Proof. induction s as [|c s IH]; [done | by rewrite !bytes_app_cons, IH]. Qed.

Lemma join_empty_app l1 l2 :
  Bytes.join_empty (l1 ++ l2) = Bytes.join_empty l1 +:+ Bytes.join_empty l2.
Proof.
  induction l1 as [|x l1 IH]; simpl; [done|].
  by rewrite IH, bytes_app_assoc.
Qed.

Lemma join_empty_concat (ls : list (list string)) :
  Bytes.join_empty (concat ls) = Bytes.join_empty (map Bytes.join_empty ls).
Proof.
  induction ls as [|l ls IH]; simpl; [done|].
  by rewrite join_empty_app, IH.
Qed.

Lemma join_empty_filter_nonempty l :
  Bytes.join_empty (filter (fun w => nonempty w = true) l) = Bytes.join_empty l.
Proof.
  induction l as [|w l IH]; [done|].
  rewrite filter_cons. destruct w as [|c w].
  - rewrite decide_False by (by vm_compute). by rewrite IH.
  - rewrite decide_True by (by vm_compute). simpl. by rewrite IH.
Qed.

Lemma bytes_filter_app p s t :
  Bytes.filter p (s +:+ t) = Bytes.filter p s +:+ Bytes.filter p t.
Proof.
  induction s as [|c s IH]; [done|].
  rewrite bytes_app_cons. simpl. destruct (p c); by rewrite ?bytes_app_cons, IH.
Qed.

Lemma bytes_forallb_app p s t :
  Bytes.forallb p (s +:+ t) = Bytes.forallb p s && Bytes.forallb p t.
Proof.
  induction s as [|c s IH]; [done|].
  rewrite bytes_app_cons. simpl. by rewrite IH, andb_assoc.
Qed.

Lemma filter_forallb p s : Bytes.forallb p s = true -> Bytes.filter p s = s.
Proof.
  induction s as [|c s IH]; simpl; [done|].
  intros [Hc Hs]%andb_prop. rewrite Hc. by rewrite IH.
Qed.

Lemma filter_lstrip s :
  Bytes.filter Bytes.notspace (Bytes.lstrip s) = Bytes.filter Bytes.notspace s.
Proof.
  unfold Bytes.notspace.
  induction s as [|c s IH]; simpl; [done|].
  destruct (Bytes.isspace c) eqn:Hc; simpl; [done|]. by rewrite Hc.
Qed.

Lemma filter_rstrip s :
  Bytes.filter Bytes.notspace (Bytes.rstrip s) = Bytes.filter Bytes.notspace s.
Proof.
  unfold Bytes.notspace.
  induction s as [|c s IH]; simpl; [done|].
  rewrite <- IH. destruct (Bytes.rstrip s) as [|d r]; simpl; [|done].
  destruct (Bytes.isspace c) eqn:Hc; simpl; [done|]. by rewrite Hc.
Qed.

Lemma filter_strip s :
  Bytes.filter Bytes.notspace (Bytes.strip s) = Bytes.filter Bytes.notspace s.
Proof. unfold Bytes.strip. by rewrite filter_lstrip, filter_rstrip. Qed.

(** What [split_run] returns: a blank-free run and blank-free, non-empty
    fragments that together hold the non-blank bytes of the input. *)
Lemma split_run_spec s :
  Bytes.forallb Bytes.notspace (Bytes.split_run s).1 = true /\
  Forall (fun f => f <> EmptyString /\ Bytes.forallb Bytes.notspace f = true)
         (Bytes.split_run s).2 /\
  (Bytes.split_run s).1 +:+ Bytes.join_empty (Bytes.split_run s).2
    = Bytes.filter Bytes.notspace s.
Proof.
  unfold Bytes.notspace.
  induction s as [|c s (Hrun & Hfrags & Hcat)]; simpl; [by repeat split|].
  destruct (Bytes.split_run s) as [run frags]; simpl in *.
  destruct (Bytes.isspace c) eqn:Hc; simpl.
  - split; [done|]. case_decide as Hr.
    + subst run. by split.
    + split; [by constructor | done].
  - rewrite Hc. simpl. by rewrite bytes_app_cons, Hcat.
Qed.

Lemma split_fragments s :
  Forall (fun f => f <> EmptyString /\ Bytes.forallb Bytes.notspace f = true)
         (Bytes.split s).
Proof.
  unfold Bytes.split. destruct (split_run_spec s) as (Hrun & Hfrags & _).
  destruct (Bytes.split_run s) as [run frags]; simpl in *.
  case_decide; [done | by constructor].
Qed.

Lemma join_empty_split s :
  Bytes.join_empty (Bytes.split s) = Bytes.filter Bytes.notspace s.
Proof.
  unfold Bytes.split. destruct (split_run_spec s) as (_ & _ & Hcat).
  destruct (Bytes.split_run s) as [run frags]; simpl in *.
  case_decide as Hr; [by subst run | done].
Qed.

End bytes_facts.


(** ** Tokenizer *)

Example _WORD_SPLIT_split_example :
  _WORD_SPLIT_split "it's(so)..." =
  ["it"; "'"; "s"; "("; "so"; ")"; ""; "."; ""; "."; ""; "."; ""].
Proof. by vm_compute. Qed.

Example basic_tokenizer_example :
  basic_tokenizer ("  Hello, world!  (it's 2024)." +:+ Bytes.LF) =
  ["Hello"; ","; "world"; "!"; "("; "it"; "'"; "s"; "2024"; ")"; "."].
Proof. by vm_compute. Qed.

Lemma _WORD_SPLIT_split_join s :
  Bytes.join_empty (_WORD_SPLIT_split s) = s.
Proof.
  induction s as [|c s IH]; simpl; [done|].
  destruct (_WORD_SPLIT_match c); simpl; [by rewrite bytes_app_nil, bytes_app_cons, IH|].
  destruct (_WORD_SPLIT_split s) as [|piece pieces]; simpl in *;
    [by subst s | by rewrite bytes_app_cons, IH].
Qed.

Lemma _WORD_SPLIT_split_pieces p s :
  Bytes.forallb p s = true ->
  Forall (fun w => Bytes.forallb p w = true) (_WORD_SPLIT_split s).
Proof.
  induction s as [|c s IH]; simpl; [by repeat constructor|].
  intros [Hc Hs]%andb_prop. specialize (IH Hs).
  destruct (_WORD_SPLIT_match c).
  - constructor; [done|]. constructor; [simpl; by rewrite Hc | done].
  - destruct (_WORD_SPLIT_split s) as [|piece pieces].
    + constructor; [simpl; by rewrite Hc | done].
    + inversion IH; subst. constructor; [simpl; by rewrite Hc | done].
Qed.

Lemma foldl_extend {A B} (f : B -> list A) (l : list B) (acc : list A) :
  foldl (fun words x => words ++ f x) acc l = acc ++ concat (map f l).
Proof.
  revert acc. induction l as [|x l IH]; intros acc; simpl.
  - by rewrite app_nil_r.
  - rewrite IH. by rewrite <- app_assoc.
Qed.

Lemma filter_concat {A} (P : A -> Prop) `{!forall x, Decision (P x)}
    (ls : list (list A)) :
  filter P (concat ls) = concat (map (filter P) ls).
Proof.
  induction ls as [|l ls IH]; simpl; [done|].
  by rewrite list.filter_app, IH.
Qed.

Lemma basic_tokenizer_fragments sentence :
  basic_tokenizer sentence =
  concat (map (fun f => filter (fun w => nonempty w = true) (_WORD_SPLIT_split f))
              (Bytes.split (Bytes.strip sentence))).
Proof.
  unfold basic_tokenizer. rewrite foldl_extend. simpl.
  rewrite filter_concat. by rewrite map_map.
Qed.

Lemma basic_tokenizer_tokens (sentence : string) :
  Forall (fun w => w <> EmptyString /\ Bytes.forallb Bytes.notspace w = true)
         (basic_tokenizer sentence).
Proof.
  rewrite basic_tokenizer_fragments. apply Forall_concat, Forall_fmap.
  eapply Forall_impl; [apply split_fragments|].
  intros f [_ Hf]. simpl. apply list.Forall_forall. intros w Hw.
  apply list_elem_of_filter in Hw as [Hne Hw]. split.
  - intros ->. discriminate Hne.
  - pose proof (_WORD_SPLIT_split_pieces _ _ Hf) as Hall.
    by apply (proj1 (list.Forall_forall _ _) Hall).
Qed.

(** C10: the tokens of [basic_tokenizer] are non-empty and free of
    whitespace; the tokens that come from one whitespace-separated
    fragment concatenate to that fragment; the token list is the
    concatenation of the fragments' tokens, so that all tokens together
    spell the non-whitespace bytes of the line, in order. *)
Theorem basic_tokenizer_preserves_text (sentence : string) :
  let fragments := Bytes.split (Bytes.strip sentence) in
  let tokens_of f := filter (fun w => nonempty w = true) (_WORD_SPLIT_split f) in
  Forall (fun w => w <> EmptyString /\ Bytes.forallb Bytes.notspace w = true)
         (basic_tokenizer sentence) /\
  basic_tokenizer sentence = concat (map tokens_of fragments) /\
  Forall (fun f => Bytes.join_empty (tokens_of f) = f) fragments /\
  Bytes.join_empty (basic_tokenizer sentence)
    = Bytes.filter Bytes.notspace sentence.
Proof.
  intros fragments tokens_of.
  assert (Hjoin : forall f, Bytes.join_empty (tokens_of f) = f).
  { intros f. unfold tokens_of.
    by rewrite join_empty_filter_nonempty, _WORD_SPLIT_split_join. }
  repeat split.
  - apply basic_tokenizer_tokens.
  - apply basic_tokenizer_fragments.
  - apply list.Forall_forall. intros f _. apply Hjoin.
  - rewrite basic_tokenizer_fragments, join_empty_concat, map_map.
    rewrite (map_ext _ id) by (intros f; apply Hjoin).
    rewrite map_id. fold fragments. unfold fragments.
    by rewrite join_empty_split, filter_strip.
Qed.

(** ** The counting dictionary *)

Lemma OrderedDict_get_set (k k' : string) (v : nat) (d : OrderedDict.t) :
  OrderedDict.get k (OrderedDict.set k' v d)
  = if decide (k' = k) then Some v else OrderedDict.get k d.
Proof.
  induction d as [|[k0 v0] d IH]; simpl.
  - done.
  - destruct (decide (k0 = k')) as [->|Hk0]; simpl.
    + by destruct (decide (k' = k)).
    + rewrite IH. destruct (decide (k0 = k)) as [->|?]; [|done].
      by rewrite decide_False by done.
Qed.

(** Both branches of the test in [count_word] store one more than the
    count read with default zero. *)
Lemma count_word_set (nd : bool) (vocab : OrderedDict.t) (w : string) :
  count_word nd vocab w
  = OrderedDict.set (normalize nd w)
      (vocab_get vocab (normalize nd w) + 1)%nat vocab.
Proof.
  unfold count_word, vocab_get, OrderedDict.contains.
  case_bool_decide as Hin; [done|].
  destruct (OrderedDict.get (normalize nd w) vocab) eqn:Hget; [|done].
  destruct Hin. eauto.
Qed.

Lemma count_word_get (nd : bool) (vocab : OrderedDict.t) (w k : string) :
  OrderedDict.get k (count_word nd vocab w)
  = if decide (normalize nd w = k)
    then Some (vocab_get vocab k + 1)%nat
    else OrderedDict.get k vocab.
Proof.
  rewrite count_word_set, OrderedDict_get_set.
  by destruct (decide (normalize nd w = k)) as [->|?].
Qed.

(** ** Digit normalisation and lookup *)

Lemma _DIGIT_RE_sub0_get (w : string) (i : nat) :
  String.get i (_DIGIT_RE_sub0 w)
  = (fun c => if Bytes.isdigit c then "0"%char else c) <$> String.get i w.
Proof.
  revert i. induction w as [|c w IH]; intros [|i]; simpl; done.
Qed.

Lemma sentence_to_token_ids_lookup (sentence : string)
    (vocabulary : gmap string Z) (tokenizer : option tokenizer_t)
    (normalize_digits : bool) :
  sentence_to_token_ids sentence vocabulary tokenizer normalize_digits
  = map (fun w => default UNK_ID (vocabulary !! normalize normalize_digits w))
        (tokenize tokenizer sentence).
Proof.
  unfold sentence_to_token_ids, tokenize, normalize.
  by destruct tokenizer, normalize_digits.
Qed.

(** C9: with [normalize_digits] every digit byte of a token becomes the
    digit zero, before counting and before lookup alike, so 2024 and 1999
    share the bucket 0000; without it tokens are left as they are and the
    two stay apart. *)
Theorem normalize_digits_buckets :
  (forall w i,
      String.get i (normalize true w)
      = (fun c => if Bytes.isdigit c then "0"%char else c) <$> String.get i w) /\
  (forall w, normalize false w = w) /\
  (forall vocab w nd,
      OrderedDict.get (normalize nd w) (count_word nd vocab w)
      = Some (vocab_get vocab (normalize nd w) + 1)%nat) /\
  (forall sentence vocabulary tokenizer nd,
      sentence_to_token_ids sentence vocabulary tokenizer nd
      = map (fun w => default UNK_ID (vocabulary !! normalize nd w))
            (tokenize tokenizer sentence)) /\
  normalize true "2024" = "0000" /\
  normalize true "1999" = "0000" /\
  normalize false "2024" <> normalize false "1999" /\
  count_corpus None true ["2024 1999"] = [("0000", 2%nat)] /\
  count_corpus None false ["2024 1999"] = [("2024", 1%nat); ("1999", 1%nat)] /\
  sentence_to_token_ids "2024 1999" {[ "0000" := 4 ]} None true = [4; 4] /\
  sentence_to_token_ids "2024 1999" {[ "2024" := 4; "1999" := 5 ]} None false
    = [4; 5].
Proof.
  split; [intros w i; apply _DIGIT_RE_sub0_get|].
  split; [done|].
  split.
  { intros vocab w nd. by rewrite count_word_get, decide_True. }
  split; [apply sentence_to_token_ids_lookup|].
  repeat split; try by vm_compute.
Qed.

(** C2: [sentence_to_token_ids] is total and gives one id per token: the
    vocabulary's id for a token it holds (after digit normalisation when
    that is asked for), and [UNK_ID], which is 3, for any other. *)
Theorem sentence_to_token_ids_unknown (sentence : string)
    (vocabulary : gmap string Z) (tokenizer : option tokenizer_t)
    (normalize_digits : bool) :
  UNK_ID = 3 /\
  Forall2 (fun w id =>
             match vocabulary !! normalize normalize_digits w with
             | Some known => id = known
             | None => id = UNK_ID
             end)
          (tokenize tokenizer sentence)
          (sentence_to_token_ids sentence vocabulary tokenizer normalize_digits).
Proof.
  split; [done|]. rewrite sentence_to_token_ids_lookup.
  induction (tokenize tokenizer sentence) as [|w ws IH]; simpl;
    constructor; [|done].
  by destruct (vocabulary !! normalize normalize_digits w).
Qed.

(** ** Sorting by descending count *)

Section sorted_reverse_facts.
Context {A : Type} (key : A -> nat).

Local Abbreviation key_ge := (key_ge key).

Lemma insert_reverse_perm (x : A) (l : list A) :
  insert_reverse key x l ≡ₚ x :: l.
Proof.
  induction l as [|y l IH]; simpl; [done|].
  destruct (key y <=? key x)%nat; [done|].
  rewrite IH. apply Permutation_swap.
Qed.

Lemma sorted_reverse_perm (l : list A) : sorted_reverse key l ≡ₚ l.
Proof.
  induction l as [|x l IH]; simpl; [done|].
  fold (sorted_reverse key l). by rewrite insert_reverse_perm, IH.
Qed.

Lemma insert_reverse_sorted (x : A) (l : list A) :
  StronglySorted key_ge l -> StronglySorted key_ge (insert_reverse key x l).
Proof.
  induction 1 as [|y l Hl IH Hy]; simpl.
  - by repeat constructor.
  - destruct (key y <=? key x)%nat eqn:Hyx.
    + apply Nat.leb_le in Hyx. constructor; [by constructor|].
      constructor; [exact Hyx|].
      eapply Forall_impl; [exact Hy|]. unfold key_ge. intros z Hz. lia.
    + apply Nat.leb_gt in Hyx. constructor; [done|].
      rewrite insert_reverse_perm. constructor; [|done].
      unfold key_ge. lia.
Qed.

Lemma sorted_reverse_sorted (l : list A) :
  StronglySorted key_ge (sorted_reverse key l).
Proof.
  induction l as [|x l IH]; simpl; [constructor|].
  by apply insert_reverse_sorted.
Qed.

(** Stability: elements of one key keep the order they had. *)
Lemma insert_reverse_stable (k : nat) (x : A) (l : list A) :
  filter (fun y => key y = k) (insert_reverse key x l)
  = filter (fun y => key y = k) (x :: l).
Proof.
  induction l as [|y l IH]; simpl; [done|].
  destruct (key y <=? key x)%nat eqn:Hyx; [done|].
  apply Nat.leb_gt in Hyx.
  rewrite (filter_cons _ y), IH, !filter_cons.
  destruct (decide (key y = k)), (decide (key x = k)); try done. lia.
Qed.

Lemma sorted_reverse_stable (k : nat) (l : list A) :
  filter (fun y => key y = k) (sorted_reverse key l)
  = filter (fun y => key y = k) l.
Proof.
  induction l as [|x l IH]; simpl; [done|].
  fold (sorted_reverse key l).
  by rewrite insert_reverse_stable, !filter_cons, IH.
Qed.

Lemma sorted_lookup_ge (l : list A) (i j : nat) (x y : A) :
  StronglySorted key_ge l -> (i <= j)%nat ->
  l !! i = Some x -> l !! j = Some y -> (key y <= key x)%nat.
Proof.
  intros Hl. revert i j. induction Hl as [|z l Hl IH Hz]; intros i j Hij Hi Hj.
  - by rewrite lookup_nil in Hi.
  - destruct i as [|i], j as [|j]; simpl in *; simplify_eq; try lia.
    + rewrite list.Forall_forall in Hz.
      apply Hz. by eapply list_elem_of_lookup_2.
    + eapply (IH i j); [lia|done..].
Qed.

End sorted_reverse_facts.

(** ** Counts against occurrences *)

Lemma vocab_get_count_word (nd : bool) (vocab : OrderedDict.t) (w k : string) :
  vocab_get (count_word nd vocab w) k
  = (vocab_get vocab k + if decide (normalize nd w = k) then 1 else 0)%nat.
Proof.
  unfold vocab_get at 1. rewrite count_word_get.
  destruct (decide (normalize nd w = k)); simpl; [done|].
  unfold vocab_get. lia.
Qed.

Lemma vocab_get_count_words (nd : bool) (ws : list string)
    (vocab : OrderedDict.t) (k : string) :
  vocab_get (foldl (count_word nd) vocab ws) k
  = (vocab_get vocab k
     + length (filter (fun w => w = k) (map (normalize nd) ws)))%nat.
Proof.
  revert vocab. induction ws as [|w ws IH]; intros vocab; simpl; [lia|].
  rewrite IH, vocab_get_count_word, filter_cons.
  destruct (decide (normalize nd w = k)); simpl; lia.
Qed.

Lemma vocab_get_count_lines (tokenizer : option tokenizer_t) (nd : bool)
    (corpus : list string) (vocab : OrderedDict.t) (k : string) :
  vocab_get (foldl (count_line tokenizer nd) vocab corpus) k
  = (vocab_get vocab k + occurrences tokenizer nd corpus k)%nat.
Proof.
  unfold occurrences, corpus_words.
  revert vocab. induction corpus as [|line corpus IH]; intros vocab; simpl; [lia|].
  rewrite IH. unfold count_line. rewrite vocab_get_count_words.
  rewrite list.filter_app, length_app. lia.
Qed.

(** The count stored for a word is the number of times it was read. *)
Lemma vocab_get_count_corpus (tokenizer : option tokenizer_t) (nd : bool)
    (corpus : list string) (k : string) :
  vocab_get (count_corpus tokenizer nd corpus) k
  = occurrences tokenizer nd corpus k.
Proof. unfold count_corpus. by rewrite vocab_get_count_lines. Qed.

(** ** The vocabulary list *)

Lemma slice_to_prefix {A} (n : Z) (l : list A) : slice_to n l `prefix_of` l.
Proof. unfold slice_to. destruct (0 <=? n); apply prefix_take. Qed.

Lemma vocab_list_of_prefix (vocab : OrderedDict.t) (max_vocabulary_size : Z) :
  vocab_list_of vocab max_vocabulary_size `prefix_of`
    _START_VOCAB ++ sorted_reverse (vocab_get vocab) (OrderedDict.keys vocab).
Proof.
  unfold vocab_list_of. case_match; [apply slice_to_prefix | done].
Qed.

Lemma vocab_list_of_length (vocab : OrderedDict.t) (max_vocabulary_size : Z) :
  0 <= max_vocabulary_size ->
  Z.of_nat (length (vocab_list_of vocab max_vocabulary_size))
    <= max_vocabulary_size.
Proof.
  intros Hmax. unfold vocab_list_of. case_match eqn:Hlen.
  - unfold slice_to. rewrite (proj2 (Z.leb_le _ _) Hmax), length_take. lia.
  - lia.
Qed.

Lemma vocab_list_of_start (vocab : OrderedDict.t) (max_vocabulary_size : Z) :
  4 <= max_vocabulary_size ->
  take 4 (vocab_list_of vocab max_vocabulary_size) = _START_VOCAB.
Proof.
  intros Hmax. unfold vocab_list_of. case_match eqn:Hlen; [|done].
  unfold slice_to. rewrite (proj2 (Z.leb_le 0 _)) by lia.
  rewrite take_take, Nat.min_l by lia. done.
Qed.

Lemma vocab_list_of_tail (vocab : OrderedDict.t) (max_vocabulary_size : Z)
    (i : nat) (w : string) :
  (4 <= i)%nat ->
  vocab_list_of vocab max_vocabulary_size !! i = Some w ->
  sorted_reverse (vocab_get vocab) (OrderedDict.keys vocab) !! (i - 4)%nat
    = Some w.
Proof.
  intros Hi Hw.
  eapply prefix_lookup_Some in Hw; [|apply vocab_list_of_prefix].
  by rewrite lookup_app_r in Hw by (simpl; lia).
Qed.

(** C4: in the vocabulary list, the words after the four reserved symbols
    stand in order of non-increasing count, the count of a word being the
    number of times the corpus holds it: a word further down the list
    never occurs more often than one above it. *)
Theorem create_vocabulary_frequency_order (tokenizer : option tokenizer_t)
    (normalize_digits : bool) (corpus : list string)
    (max_vocabulary_size : Z) (i j : nat) (w1 w2 : string) :
  (4 <= i)%nat -> (i <= j)%nat ->
  vocab_list_of (count_corpus tokenizer normalize_digits corpus)
                max_vocabulary_size !! i = Some w1 ->
  vocab_list_of (count_corpus tokenizer normalize_digits corpus)
                max_vocabulary_size !! j = Some w2 ->
  (occurrences tokenizer normalize_digits corpus w2
   <= occurrences tokenizer normalize_digits corpus w1)%nat.
Proof.
  intros Hi Hij H1 H2.
  apply vocab_list_of_tail in H1; [|lia].
  apply vocab_list_of_tail in H2; [|lia].
  rewrite <- !vocab_get_count_corpus.
  eapply (sorted_lookup_ge _ _ (i - 4) (j - 4));
    [apply sorted_reverse_sorted | lia | done..].
Qed.

Lemma create_vocabulary_frequency_order_witness :
  (occurrences None true ["d b a c a"; "b c a b a c a"] "d"
   <= occurrences None true ["d b a c a"; "b c a b a c a"] "a")%nat.
Proof.
  apply (create_vocabulary_frequency_order None true
           ["d b a c a"; "b c a b a c a"] 100 4 7 "a" "d").
  - lia.
  - lia.
  - vm_compute. reflexivity.
  - vm_compute. reflexivity.
Defined.

(** The ordering example of the specification: counts a:5, b:3, c:3, d:1
    and room for a hundred entries. *)
Example create_vocabulary_frequency_example :
  let corpus := ["d b a c a"; "b c a b a c a"] in
  count_corpus None true corpus
    = [("d", 1%nat); ("b", 3%nat); ("a", 5%nat); ("c", 3%nat)] /\
  vocab_list_of (count_corpus None true corpus) 100
    = [_PAD; _GO; _EOS; _UNK; "a"; "b"; "c"; "d"].
Proof. by vm_compute. Qed.

(** ** Writing a file *)

Section gfile_facts.
Context (parent_exists : string -> bool) (f : string -> string).
Implicit Types (fs : gmap string string) (l : list string).

Local Abbreviation write_each :=
  (foldl (fun st w => gfile.write parent_exists (f w) st)).

(** Once the file is there, each write appends to it. *)
Lemma gfile_write_appends l h fs content :
  gfile.w_created h = true ->
  fs !! gfile.w_name h = Some content ->
  write_each (Ok h, fs) l
  = (Ok h, <[gfile.w_name h := content +:+ Bytes.join_empty (map f l)]> fs).
Proof.
  revert fs content. induction l as [|w l IH]; intros fs content Hh Hfs; simpl.
  - by rewrite bytes_app_empty_r, insert_id.
  - rewrite Hh, Hfs. simpl.
    rewrite (IH _ (content +:+ f w)) by (done || by rewrite lookup_insert_eq).
    by rewrite insert_insert_eq, bytes_app_assoc.
Qed.

(** After an exception the rest of the loop is not run. *)
Lemma gfile_write_raised l e fs :
  write_each (Raise e, fs) l = (Raise e, fs).
Proof. induction l as [|w l IH]; simpl; [done | exact IH]. Qed.

(** A whole writer session.  When the file is to be created, because
    opening does so or because something is written, the session raises
    and changes nothing if the directory is missing, and leaves the
    chunks in order in the file otherwise; a lazy session without a
    write does nothing. *)
Lemma gfile_write_all open_creates path fs l :
  gfile.close (write_each (gfile.GFile_w open_creates parent_exists path fs) l)
  = if open_creates || bool_decide (l <> [])
    then if parent_exists path
         then (Ok tt, <[path := Bytes.join_empty (map f l)]> fs)
         else (Raise (NotFoundError path), fs)
    else (Ok tt, fs).
Proof.
  unfold gfile.GFile_w. destruct open_creates; simpl.
  - destruct (parent_exists path); [|by rewrite gfile_write_raised].
    rewrite (gfile_write_appends l _ _ EmptyString)
      by (done || by rewrite lookup_insert_eq).
    simpl. by rewrite insert_insert_eq.
  - destruct l as [|w l]; simpl; [done|].
    destruct (parent_exists path); [|by rewrite gfile_write_raised].
    rewrite (gfile_write_appends l _ _ (f w))
      by (done || by rewrite lookup_insert_eq).
    simpl. by rewrite insert_insert_eq.
Qed.

Lemma gfile_write_all_content open_creates path fs l :
  fs !! path = None ->
  (gfile.close
     (write_each (gfile.GFile_w open_creates parent_exists path fs) l)).1
  = Ok tt ->
  default EmptyString
    ((gfile.close
        (write_each (gfile.GFile_w open_creates parent_exists path fs) l)).2
     !! path)
  = Bytes.join_empty (map f l).
Proof.
  intros Hfs. rewrite gfile_write_all.
  destruct (open_creates || bool_decide (l <> [])) eqn:Hwrites.
  - destruct (parent_exists path); simpl; [|done].
    by rewrite lookup_insert_eq.
  - intros _. simpl. rewrite Hfs.
    apply orb_false_elim in Hwrites as [_ Hl].
    apply bool_decide_eq_false in Hl. by destruct l; [|destruct Hl].
Qed.

Lemma gfile_write_all_other open_creates path fs l other :
  other <> path ->
  (gfile.close
     (write_each (gfile.GFile_w open_creates parent_exists path fs) l)).2
  !! other
  = fs !! other.
Proof.
  intros Hne. rewrite gfile_write_all.
  repeat case_match; simpl; [by rewrite lookup_insert_ne | done..].
Qed.

Lemma gfile_write_all_created open_creates path fs l :
  (gfile.close
     (write_each (gfile.GFile_w open_creates parent_exists path fs) l)).2
  = fs \/
  is_Some
    ((gfile.close
        (write_each (gfile.GFile_w open_creates parent_exists path fs) l)).2
     !! path).
Proof.
  rewrite gfile_write_all.
  repeat case_match; simpl;
    [right; rewrite lookup_insert_eq; eauto | by left..].
Qed.

(** A session raises only the not-found error of its own path, and then
    leaves the files as they were. *)
Lemma gfile_write_all_raises open_creates path fs l e fs' :
  gfile.close (write_each (gfile.GFile_w open_creates parent_exists path fs) l)
  = (Raise e, fs') ->
  e = NotFoundError path /\ fs' = fs /\ parent_exists path = false.
Proof.
  rewrite gfile_write_all.
  destruct (open_creates || bool_decide (l <> [])); [|done].
  destruct (parent_exists path); [done|]. by intros [= <- <-].
Qed.

End gfile_facts.

Lemma gfile_Exists_true (fs : gmap string string) (path : string) :
  gfile.Exists fs path = true <-> is_Some (fs !! path).
Proof. unfold gfile.Exists. by rewrite bool_decide_eq_true. Qed.

Lemma gfile_Exists_false (fs : gmap string string) (path : string) :
  gfile.Exists fs path = false <-> fs !! path = None.
Proof.
  unfold gfile.Exists. rewrite bool_decide_eq_false.
  by rewrite eq_None_not_Some.
Qed.

(** ** Vocabulary builder *)

(** A call that finds no vocabulary file and reads the corpus. *)
Lemma create_vocabulary_builds (open_creates : bool)
    (parent_exists : string -> bool)
    (vocabulary_path data_path : string) (max_vocabulary_size : Z)
    (tokenizer : option tokenizer_t) (normalize_digits : bool)
    (fs : gmap string string) (content : string) :
  fs !! vocabulary_path = None ->
  fs !! data_path = Some content ->
  create_vocabulary open_creates parent_exists vocabulary_path data_path max_vocabulary_size
                    tokenizer normalize_digits fs
  = gfile.close
      (foldl (fun st w => gfile.write parent_exists (w +:+ Bytes.LF) st)
             (gfile.GFile_w open_creates parent_exists vocabulary_path fs)
             (vocab_list_of
                (count_corpus tokenizer normalize_digits
                   (Bytes.readlines content))
                max_vocabulary_size)).
Proof.
  intros Hv Hd. unfold create_vocabulary, gfile.lines.
  by rewrite (proj2 (gfile_Exists_false _ _) Hv), Hd.
Qed.

Lemma create_vocabulary_exists (open_creates : bool)
    (parent_exists : string -> bool)
    (vocabulary_path data_path : string) (max_vocabulary_size : Z)
    (tokenizer : option tokenizer_t) (normalize_digits : bool)
    (fs : gmap string string) :
  is_Some (fs !! vocabulary_path) ->
  create_vocabulary open_creates parent_exists vocabulary_path data_path max_vocabulary_size
                    tokenizer normalize_digits fs
  = (Ok tt, fs).
Proof.
  intros Hv. unfold create_vocabulary.
  by rewrite (proj2 (gfile_Exists_true _ _) Hv).
Qed.

Lemma create_vocabulary_no_corpus (open_creates : bool)
    (parent_exists : string -> bool)
    (vocabulary_path data_path : string) (max_vocabulary_size : Z)
    (tokenizer : option tokenizer_t) (normalize_digits : bool)
    (fs : gmap string string) :
  fs !! vocabulary_path = None ->
  fs !! data_path = None ->
  create_vocabulary open_creates parent_exists vocabulary_path data_path max_vocabulary_size
                    tokenizer normalize_digits fs
  = (Raise (NotFoundError data_path), fs).
Proof.
  intros Hv Hd. unfold create_vocabulary, gfile.lines.
  by rewrite (proj2 (gfile_Exists_false _ _) Hv), Hd.
Qed.

(** C1, as amended: when [create_vocabulary] builds a vocabulary with a
    non-negative [max_vocabulary_size], the list it computes from the
    lines the reader gives for the corpus (carriage returns dropped) has
    at most [max_vocabulary_size] entries and is a prefix of the four
    reserved symbols followed by the sorted words;
    when [max_vocabulary_size] is at least four, its first four entries
    are [_PAD], [_GO], [_EOS], [_UNK] in this order.  The call succeeds
    when the directory of [vocabulary_path] exists, and a call that
    succeeds has written this list, one entry per line; a call that
    raises has raised the not-found error of [vocabulary_path] and has
    written nothing. *)
Theorem create_vocabulary_bounded (open_creates : bool)
    (parent_exists : string -> bool)
    (vocabulary_path data_path : string) (max_vocabulary_size : Z)
    (tokenizer : option tokenizer_t) (normalize_digits : bool)
    (fs : gmap string string) (content : string) :
  0 <= max_vocabulary_size ->
  fs !! vocabulary_path = None ->
  fs !! data_path = Some content ->
  let vocab :=
    count_corpus tokenizer normalize_digits (Bytes.readlines content) in
  let vocab_list := vocab_list_of vocab max_vocabulary_size in
  let after :=
    create_vocabulary open_creates parent_exists vocabulary_path data_path
                      max_vocabulary_size tokenizer normalize_digits fs in
  (parent_exists vocabulary_path = true -> after.1 = Ok tt) /\
  (after.1 = Ok tt ->
   default EmptyString (after.2 !! vocabulary_path)
   = Bytes.join_empty (map (fun w => w +:+ Bytes.LF) vocab_list)) /\
  (forall e, after.1 = Raise e ->
             e = NotFoundError vocabulary_path /\ after.2 = fs) /\
  Z.of_nat (length vocab_list) <= max_vocabulary_size /\
  vocab_list `prefix_of`
    _START_VOCAB ++ sorted_reverse (vocab_get vocab) (OrderedDict.keys vocab) /\
  (4 <= max_vocabulary_size -> take 4 vocab_list = _START_VOCAB).
Proof.
  intros Hmax Hv Hd vocab vocab_list after. subst after.
  rewrite (create_vocabulary_builds _ _ _ _ _ _ _ _ content) by done.
  fold vocab vocab_list.
  split.
  { intros Hdir. rewrite gfile_write_all, Hdir. by case_match. }
  split; [by apply gfile_write_all_content|].
  split.
  { intros e He.
    destruct (gfile.close _) as [r fs'] eqn:Hrun. simpl in He. subst r.
    apply gfile_write_all_raises in Hrun as (-> & -> & _). done. }
  split; [by apply vocab_list_of_length|].
  split; [apply vocab_list_of_prefix|].
  apply vocab_list_of_start.
Qed.

Lemma create_vocabulary_bounded_witness :
  let vocab := count_corpus None true (Bytes.readlines "the cat, the dog") in
  (create_vocabulary false all_dirs "vocab" "train.en" 6 None true
     {[ "train.en" := "the cat, the dog" ]}).1 = Ok tt /\
  Z.of_nat (length (vocab_list_of vocab 6)) <= 6 /\
  take 4 (vocab_list_of vocab 6) = _START_VOCAB.
Proof.
  pose proof (create_vocabulary_bounded false all_dirs "vocab" "train.en" 6
                None true
                {[ "train.en" := "the cat, the dog" ]} "the cat, the dog")
    as H.
  destruct H as (Hok & _ & _ & Hlen & _ & Hstart).
  - lia.
  - vm_compute. reflexivity.
  - vm_compute. reflexivity.
  - split; [by apply Hok|]. split; [exact Hlen | apply Hstart; lia].
Defined.

(** C1 as stated fails for a vocabulary size below four: with room for two
    entries the file holds [_PAD] and [_GO] only, so the first four
    entries of the list are not the four reserved symbols. *)
Lemma create_vocabulary_small_max_counterexample :
  let fs : gmap string string := {[ "train.en" := "a b c" +:+ Bytes.LF ]} in
  let after :=
    create_vocabulary false all_dirs "vocab" "train.en" 2 None true fs in
  let vocab_list :=
    vocab_list_of
      (count_corpus None true (Bytes.readlines ("a b c" +:+ Bytes.LF))) 2 in
  after.1 = Ok tt /\
  after.2 !! "vocab" = Some (_PAD +:+ Bytes.LF +:+ _GO +:+ Bytes.LF) /\
  vocab_list = [_PAD; _GO] /\
  take 4 vocab_list <> _START_VOCAB.
Proof. repeat split; by vm_compute. Qed.

(** A negative size cuts from the end instead, and the bound is lost. *)
Example vocab_list_of_negative_max :
  vocab_list_of (count_corpus None true ["a b c"]) (-1)
  = [_PAD; _GO; _EOS; _UNK; "a"; "b"].
Proof. by vm_compute. Qed.

(** A carriage return in the corpus does not separate two words: the
    reader drops it before the tokenizer sees the line. *)
Example create_vocabulary_carriage_return :
  let fs : gmap string string :=
    {[ "train.en" := "b" +:+ Bytes.CR +:+ "c" +:+ Bytes.LF ]} in
  create_vocabulary false all_dirs "vocab" "train.en" 10 None true fs
  = (Ok tt,
     <["vocab" := Bytes.join_empty
                    (map (fun w => w +:+ Bytes.LF)
                         [_PAD; _GO; _EOS; _UNK; "bc"])]> fs).
Proof. by vm_compute. Qed.

(** Without the directory that is to hold the vocabulary the first write
    raises, and no file is left. *)
Example create_vocabulary_missing_directory :
  let fs : gmap string string := {[ "train.en" := "a b c" +:+ Bytes.LF ]} in
  create_vocabulary false in_cwd "data/vocab" "train.en" 10 None true fs
  = (Raise (NotFoundError "data/vocab"), fs) /\
  create_vocabulary true in_cwd "data/vocab" "train.en" 10 None true fs
  = (Raise (NotFoundError "data/vocab"), fs).
Proof. split; by vm_compute. Qed.

(** C3: with a file already at [vocabulary_path], [create_vocabulary]
    returns at once: the file system is unchanged and the corpus is not
    opened, so it need not even exist.  In every state a second call with
    the same arguments returns what the first did and leaves the files as
    the first left them. *)
Theorem create_vocabulary_idempotent (open_creates : bool)
    (parent_exists : string -> bool)
    (vocabulary_path data_path : string) (max_vocabulary_size : Z)
    (tokenizer : option tokenizer_t) (normalize_digits : bool)
    (fs : gmap string string) :
  (is_Some (fs !! vocabulary_path) ->
   create_vocabulary open_creates parent_exists vocabulary_path data_path
                     max_vocabulary_size tokenizer normalize_digits fs
   = (Ok tt, fs)) /\
  create_vocabulary open_creates parent_exists vocabulary_path data_path
    max_vocabulary_size tokenizer normalize_digits
    (create_vocabulary open_creates parent_exists vocabulary_path data_path
       max_vocabulary_size tokenizer normalize_digits fs).2
  = create_vocabulary open_creates parent_exists vocabulary_path data_path
      max_vocabulary_size tokenizer normalize_digits fs.
Proof.
  split; [apply create_vocabulary_exists|].
  destruct (fs !! vocabulary_path) as [old|] eqn:Hv.
  - assert (is_Some (fs !! vocabulary_path)) as Hsome by eauto.
    rewrite (create_vocabulary_exists _ _ _ _ _ _ _ fs) by done. simpl.
    by rewrite create_vocabulary_exists.
  - destruct (fs !! data_path) as [content|] eqn:Hd.
    + rewrite (create_vocabulary_builds _ _ _ _ _ _ _ fs content) by done.
      rewrite gfile_write_all.
      destruct (open_creates || bool_decide (_ <> [])) eqn:Hwrites;
        [destruct (parent_exists vocabulary_path) eqn:Hdir|]; simpl.
      * apply create_vocabulary_exists. rewrite lookup_insert_eq. eauto.
      * rewrite (create_vocabulary_builds _ _ _ _ _ _ _ fs content) by done.
        by rewrite gfile_write_all, Hwrites, Hdir.
      * rewrite (create_vocabulary_builds _ _ _ _ _ _ _ fs content) by done.
        by rewrite gfile_write_all, Hwrites.
    + rewrite (create_vocabulary_no_corpus _ _ _ _ _ _ _ fs) by done. simpl.
      by rewrite create_vocabulary_no_corpus.
Qed.

Lemma create_vocabulary_idempotent_witness :
  create_vocabulary false all_dirs "vocab" "missing.en" 100 None true
                    {[ "vocab" := "stale" ]}
  = (Ok tt, {[ "vocab" := "stale" ]}).
Proof.
  apply (proj1 (create_vocabulary_idempotent false all_dirs "vocab" "missing.en" 100
                  None true {[ "vocab" := "stale" ]})).
  exists "stale". vm_compute. reflexivity.
Defined.

(** C7: with no file at [vocabulary_path] and no corpus at [data_path],
    [create_vocabulary] raises the not-found error of the corpus and
    leaves the file system as it was: there is still no file, partial or
    otherwise, at [vocabulary_path]. *)
Theorem create_vocabulary_missing_corpus (open_creates : bool)
    (parent_exists : string -> bool)
    (vocabulary_path data_path : string) (max_vocabulary_size : Z)
    (tokenizer : option tokenizer_t) (normalize_digits : bool)
    (fs : gmap string string) :
  fs !! vocabulary_path = None ->
  fs !! data_path = None ->
  create_vocabulary open_creates parent_exists vocabulary_path data_path
                    max_vocabulary_size tokenizer normalize_digits fs
  = (Raise (NotFoundError data_path), fs) /\
  (create_vocabulary open_creates parent_exists vocabulary_path data_path
                     max_vocabulary_size tokenizer normalize_digits fs).2
    !! vocabulary_path = None.
Proof.
  intros Hv Hd. by rewrite create_vocabulary_no_corpus.
Qed.

Lemma create_vocabulary_missing_corpus_witness :
  create_vocabulary true all_dirs "vocab" "missing.en" 100 None true ∅
  = (Raise (NotFoundError "missing.en"), ∅).
Proof.
  apply (create_vocabulary_missing_corpus true all_dirs "vocab" "missing.en" 100
           None true ∅).
  - vm_compute. reflexivity.
  - vm_compute. reflexivity.
Defined.

(** ** Lines and stripping *)

Lemma rstrip_idemp (s : string) : Bytes.rstrip (Bytes.rstrip s) = Bytes.rstrip s.
Proof.
  induction s as [|c s IH]; simpl; [done|].
  destruct (Bytes.rstrip s) as [|d r] eqn:Hr.
  - destruct (Bytes.isspace c) eqn:Hc; simpl; [done | by rewrite Hc].
  - change (Bytes.rstrip (String c (String d r))) with
      (match Bytes.rstrip (String d r) with
       | EmptyString =>
           if Bytes.isspace c then EmptyString else String c EmptyString
       | r' => String c r'
       end).
    by rewrite IH.
Qed.

Lemma rstrip_lstrip (r : string) :
  Bytes.rstrip r = r -> Bytes.rstrip (Bytes.lstrip r) = Bytes.lstrip r.
Proof.
  induction r as [|c r IH]; [done|].
  intros Hr. simpl. destruct (Bytes.isspace c) eqn:Hc; [|done].
  apply IH. simpl in Hr. rewrite Hc in Hr.
  destruct (Bytes.rstrip r); [done | congruence].
Qed.

Lemma lstrip_idemp (s : string) : Bytes.lstrip (Bytes.lstrip s) = Bytes.lstrip s.
Proof.
  induction s as [|c s IH]; simpl; [done|].
  destruct (Bytes.isspace c) eqn:Hc; [done|]. simpl. by rewrite Hc.
Qed.

(** Nothing is left to strip from a stripped line. *)
Lemma strip_stripped (s : string) :
  Bytes.lstrip (Bytes.strip s) = Bytes.strip s /\
  Bytes.rstrip (Bytes.strip s) = Bytes.strip s.
Proof.
  unfold Bytes.strip. split; [apply lstrip_idemp|].
  apply rstrip_lstrip, rstrip_idemp.
Qed.

(** A line made of a blank-free token and its line feed strips to the
    token. *)
Lemma strip_token_line (tok : string) :
  Bytes.forallb Bytes.notspace tok = true ->
  Bytes.strip (tok +:+ Bytes.LF) = tok.
Proof.
  intros Htok. unfold Bytes.strip.
  assert (Bytes.rstrip (tok +:+ Bytes.LF) = tok) as ->.
  { induction tok as [|c tok IH]; [done|].
    apply andb_prop in Htok as [Hc Htok]. rewrite bytes_app_cons. simpl.
    rewrite (IH Htok). unfold Bytes.notspace in Hc.
    destruct tok; [|done]. by destruct (Bytes.isspace c). }
  destruct tok as [|c tok]; [done|].
  apply andb_prop in Htok as [Hc _]. simpl. unfold Bytes.notspace in Hc.
  by destruct (Bytes.isspace c).
Qed.

Lemma readlines_line (x rest : string) :
  Bytes.forallb Bytes.not_newline x = true ->
  Bytes.readlines (x +:+ Bytes.LF +:+ rest)
  = (x +:+ Bytes.LF) :: Bytes.readlines rest.
Proof.
  induction x as [|c x IH]; [done|].
  intros [Hc Hx]%andb_prop. rewrite !bytes_app_cons. simpl.
  unfold Bytes.not_newline in Hc.
  destruct (Ascii.eqb c Bytes.newline); [done|].
  destruct (Ascii.eqb c Bytes.carriage_return); [done|].
  by rewrite (IH Hx).
Qed.

(** Lines written one by one are read back one by one. *)
Lemma readlines_join_lines {A} (f : A -> string) (l : list A) :
  Forall (fun x => Bytes.forallb Bytes.not_newline (f x) = true) l ->
  Bytes.readlines (Bytes.join_empty (map (fun x => f x +:+ Bytes.LF) l))
  = map (fun x => f x +:+ Bytes.LF) l.
Proof.
  induction 1 as [|x l Hx Hl IH]; simpl; [done|].
  by rewrite bytes_app_assoc, readlines_line, IH.
Qed.

(** The reader loses the carriage returns and nothing else: the lines it
    yields, put together, are the content without its carriage
    returns. *)
Lemma readlines_concat (s : string) :
  Bytes.join_empty (Bytes.readlines s)
  = Bytes.filter (fun c => negb (Ascii.eqb c Bytes.carriage_return)) s.
Proof.
  induction s as [|c s IH]; [done|]. simpl.
  destruct (Ascii.eqb c Bytes.newline) eqn:Hn.
  - apply Ascii.eqb_eq in Hn. subst c. simpl. by rewrite IH.
  - destruct (Ascii.eqb c Bytes.carriage_return); simpl; [exact IH|].
    rewrite <- IH. by destruct (Bytes.readlines s).
Qed.

(** No line is empty, and no line holds a carriage return. *)
Lemma readlines_lines (s : string) :
  Forall (fun line =>
            line <> EmptyString /\
            Bytes.forallb
              (fun c => negb (Ascii.eqb c Bytes.carriage_return)) line = true)
         (Bytes.readlines s).
Proof.
  induction s as [|c s IH]; simpl; [constructor|].
  destruct (Ascii.eqb c Bytes.newline) eqn:Hn.
  - apply Ascii.eqb_eq in Hn. subst c. by constructor.
  - destruct (Ascii.eqb c Bytes.carriage_return) eqn:Hr; [exact IH|].
    destruct (Bytes.readlines s) as [|l ls].
    + constructor; [|constructor]. simpl. by rewrite Hr.
    + inversion IH as [|? ? [_ Hl] Hls]; subst.
      constructor; [|exact Hls]. simpl. by rewrite Hr, Hl.
Qed.

(** A carriage return inside a line or before its line feed is dropped; a
    tail without line feed is a last line, unless carriage returns are
    all it holds. *)
Example readlines_carriage_return :
  Bytes.readlines ("a" +:+ Bytes.CR +:+ "b" +:+ Bytes.LF
                   +:+ "c" +:+ Bytes.CR +:+ Bytes.LF)
  = ["ab" +:+ Bytes.LF; "c" +:+ Bytes.LF] /\
  Bytes.readlines ("a" +:+ Bytes.LF +:+ "b" +:+ Bytes.CR)
  = ["a" +:+ Bytes.LF; "b"] /\
  Bytes.readlines ("a" +:+ Bytes.LF +:+ Bytes.CR +:+ Bytes.CR)
  = ["a" +:+ Bytes.LF] /\
  Bytes.readlines (Bytes.CR +:+ Bytes.LF) = [Bytes.LF].
Proof. repeat split; by vm_compute. Qed.

(** ** Vocabulary index *)

Lemma dict_snoc (pairs : list (string * Z)) (k : string) (v : Z) :
  dict (pairs ++ [(k, v)]) = <[k := v]> (dict pairs).
Proof. unfold dict. by rewrite foldl_snoc. Qed.

Lemma enumerate_snoc {A} (l : list A) (x : A) :
  enumerate (l ++ [x]) = enumerate l ++ [(Z.of_nat (length l), x)].
Proof.
  unfold enumerate. rewrite imap_app. simpl. by rewrite Nat.add_0_r.
Qed.

Lemma index_snoc (rev_vocab : list string) (x : string) :
  dict (map (fun yx => (yx.2, yx.1)) (enumerate (rev_vocab ++ [x])))
  = <[x := Z.of_nat (length rev_vocab)]>
      (dict (map (fun yx : Z * string => (yx.2, yx.1)) (enumerate rev_vocab))).
Proof. rewrite enumerate_snoc, map_app. exact (dict_snoc _ x _). Qed.

(** The mapping sends a token to the last position that holds it. *)
Lemma index_lookup (rev_vocab : list string) (t : string) (id : Z) :
  dict (map (fun yx => (yx.2, yx.1)) (enumerate rev_vocab)) !! t = Some id
  <-> exists j : nat,
        id = Z.of_nat j /\ rev_vocab !! j = Some t /\
        forall k : nat, (j < k)%nat -> rev_vocab !! k <> Some t.
Proof.
  revert id. induction rev_vocab as [|x l IH] using rev_ind; intros id.
  - unfold dict. simpl. rewrite lookup_empty.
    split; [done | by intros (j & _ & Hj & _)].
  - rewrite index_snoc. destruct (decide (x = t)) as [->|Hx].
    + rewrite lookup_insert_eq. split.
      * intros [= <-]. exists (length l). split; [done|]. split.
        -- by rewrite lookup_app_r, Nat.sub_diag.
        -- intros k Hk. rewrite lookup_ge_None_2; [done|].
           rewrite length_app. simpl. lia.
      * intros (j & -> & Hj & Hlast). f_equal. f_equal.
        destruct (Nat.lt_trichotomy j (length l)) as [Hlt|[Heq|Hgt]]; [|done|].
        -- destruct (Hlast (length l) Hlt).
           by rewrite lookup_app_r, Nat.sub_diag.
        -- rewrite lookup_ge_None_2 in Hj; [done|].
           rewrite length_app. simpl. lia.
    + rewrite lookup_insert_ne by done. rewrite IH. split.
      * intros (j & -> & Hj & Hlast). exists j. split; [done|].
        split; [by apply lookup_app_l_Some|].
        intros k Hk Hkt. apply lookup_app_Some in Hkt as [Hkt|[_ Hkt]].
        -- by apply (Hlast k).
        -- apply list_lookup_singleton_Some in Hkt as [_ ?]. done.
      * intros (j & -> & Hj & Hlast). exists j. split; [done|].
        apply lookup_app_Some in Hj as [Hj|[_ Hj]].
        -- split; [done|]. intros k Hk Hkt. apply (Hlast k Hk).
           by apply lookup_app_l_Some.
        -- apply list_lookup_singleton_Some in Hj as [_ ?]. done.
Qed.

Lemma index_dom (rev_vocab : list string) (t : string) :
  is_Some (dict (map (fun yx => (yx.2, yx.1)) (enumerate rev_vocab)) !! t)
  <-> t ∈ rev_vocab.
Proof.
  induction rev_vocab as [|x l IH] using rev_ind.
  - unfold dict. simpl. rewrite lookup_empty.
    split; [by intros [? ?] | by intros ?%elem_of_nil].
  - rewrite index_snoc, elem_of_app, list_elem_of_singleton, <- IH.
    destruct (decide (x = t)) as [->|Hx].
    + rewrite lookup_insert_eq. split; eauto.
    + rewrite lookup_insert_ne by done. split; [eauto|].
      by intros [?| ->].
Qed.

Lemma initialize_vocabulary_loads (fs : gmap string string)
    (vocabulary_path content : string) :
  fs !! vocabulary_path = Some content ->
  initialize_vocabulary fs vocabulary_path
  = Ok (dict (map (fun yx => (yx.2, yx.1))
                  (enumerate (map Bytes.strip (Bytes.readlines content)))),
        map Bytes.strip (Bytes.readlines content)).
Proof.
  intros Hfs. unfold initialize_vocabulary, gfile.lines.
  rewrite (proj2 (gfile_Exists_true _ _)) by eauto. by rewrite Hfs.
Qed.

Lemma initialize_vocabulary_missing (fs : gmap string string)
    (vocabulary_path : string) :
  fs !! vocabulary_path = None ->
  initialize_vocabulary fs vocabulary_path
  = Raise (ValueError not_found_msg vocabulary_path).
Proof.
  intros Hfs. unfold initialize_vocabulary.
  by rewrite (proj2 (gfile_Exists_false _ _) Hfs).
Qed.

(** C5: without a file at the path, [initialize_vocabulary] raises its
    not-found error (a [ValueError] naming the path); with a file it
    returns, without raising, the list of the lines the reader gives for
    the file (ended at line feeds, carriage returns dropped), each
    stripped, in file order, and a mapping that is defined on exactly the
    listed tokens and sends each to a position that holds it.  A stripped entry
    has nothing left to strip, and for a line made of a blank-free token
    and its line feed it is the token. *)
Theorem initialize_vocabulary_load (fs : gmap string string)
    (vocabulary_path : string) :
  (fs !! vocabulary_path = None ->
   initialize_vocabulary fs vocabulary_path
   = Raise (ValueError not_found_msg vocabulary_path)) /\
  (forall content, fs !! vocabulary_path = Some content ->
   exists vocab rev_vocab,
     initialize_vocabulary fs vocabulary_path = Ok (vocab, rev_vocab) /\
     rev_vocab = map Bytes.strip (Bytes.readlines content) /\
     Forall (fun t => Bytes.lstrip t = t /\ Bytes.rstrip t = t) rev_vocab /\
     (forall (i : nat) tok,
         Bytes.readlines content !! i = Some (tok +:+ Bytes.LF) ->
         Bytes.forallb Bytes.notspace tok = true ->
         rev_vocab !! i = Some tok) /\
     (forall t, is_Some (vocab !! t) <-> t ∈ rev_vocab) /\
     (forall t id, vocab !! t = Some id ->
                   exists i : nat, id = Z.of_nat i /\ rev_vocab !! i = Some t)).
Proof.
  split; [apply initialize_vocabulary_missing|].
  intros content Hfs. eexists _, _.
  split; [by apply initialize_vocabulary_loads|].
  split; [done|]. split.
  { apply list.Forall_forall. intros t [line [-> _]]%list_elem_of_fmap.
    apply strip_stripped. }
  split.
  { intros i tok Hi Htok. rewrite list_lookup_fmap, Hi. simpl.
    by rewrite strip_token_line. }
  split; [intros t; apply index_dom|].
  intros t id (j & -> & Hj & _)%index_lookup. eauto.
Qed.

Lemma initialize_vocabulary_load_witness :
  initialize_vocabulary ∅ "vocab40000.en"
  = Raise (ValueError not_found_msg "vocab40000.en") /\
  exists vocab,
    initialize_vocabulary {[ "vocab" := "_PAD" +:+ Bytes.LF +:+ "_GO" ]} "vocab"
    = Ok (vocab, ["_PAD"; "_GO"]).
Proof.
  split.
  - apply (proj1 (initialize_vocabulary_load ∅ "vocab40000.en")).
    vm_compute. reflexivity.
  - destruct (proj2 (initialize_vocabulary_load
                       {[ "vocab" := "_PAD" +:+ Bytes.LF +:+ "_GO" ]} "vocab")
                ("_PAD" +:+ Bytes.LF +:+ "_GO"))
      as (vocab & rev_vocab & Hinit & Hrev & _).
    + vm_compute. reflexivity.
    + exists vocab. rewrite Hinit, Hrev. vm_compute. reflexivity.
Defined.

(** Carriage returns never reach the token list: one inside a line is
    dropped by the reader, so two lines that differ by it alone load as
    the same token. *)
Example initialize_vocabulary_carriage_return :
  initialize_vocabulary
    {[ "vocab" := "a" +:+ Bytes.CR +:+ "b" +:+ Bytes.LF
                  +:+ "c" +:+ Bytes.CR +:+ Bytes.LF ]} "vocab"
  = Ok ({[ "ab" := 0; "c" := 1 ]}, ["ab"; "c"]) /\
  initialize_vocabulary
    {[ "vocab" := "ab" +:+ Bytes.LF
                  +:+ "a" +:+ Bytes.CR +:+ "b" +:+ Bytes.LF ]} "vocab"
  = Ok ({[ "ab" := 1 ]}, ["ab"; "ab"]).
Proof. split; by vm_compute. Qed.

(** C6: nothing is deduplicated at load.  The list has one entry per line
    that the reader gives for the file, so a token that stands on two
    lines is listed twice, and the mapping gives it the later position:
    the last one that holds it. *)
Theorem initialize_vocabulary_duplicates (fs : gmap string string)
    (vocabulary_path : string) (vocab : gmap string Z)
    (rev_vocab : list string) (t : string) (i j : nat) :
  initialize_vocabulary fs vocabulary_path = Ok (vocab, rev_vocab) ->
  rev_vocab !! i = Some t ->
  rev_vocab !! j = Some t ->
  (i < j)%nat ->
  (forall k : nat, (j < k)%nat -> rev_vocab !! k <> Some t) ->
  vocab !! t = Some (Z.of_nat j) /\
  rev_vocab = map Bytes.strip (file_lines fs vocabulary_path) /\
  length rev_vocab = length (file_lines fs vocabulary_path).
Proof.
  intros Hinit Hi Hj Hij Hlast. unfold file_lines.
  destruct (fs !! vocabulary_path) as [content|] eqn:Hfs.
  - rewrite (initialize_vocabulary_loads _ _ content) in Hinit by done.
    injection Hinit as <- <-. split; [|by rewrite length_map].
    apply index_lookup. eauto.
  - by rewrite initialize_vocabulary_missing in Hinit.
Qed.

Lemma initialize_vocabulary_duplicates_witness :
  dict (map (fun yx => (yx.2, yx.1)) (enumerate ["a"; "b"; "a"])) !! "a"
  = Some 2.
Proof.
  apply (initialize_vocabulary_duplicates
           {[ "vocab" := "a" +:+ Bytes.LF +:+ "b" +:+ Bytes.LF +:+ "a" ]}
           "vocab"
           (dict (map (fun yx => (yx.2, yx.1)) (enumerate ["a"; "b"; "a"])))
           ["a"; "b"; "a"] "a" 0 2).
  - vm_compute. reflexivity.
  - reflexivity.
  - reflexivity.
  - lia.
  - intros [|[|[|k]]] Hk; try lia. discriminate.
Defined.

(** ** Encoding a corpus *)

Lemma string_of_uint_no_newline (d : Decimal.uint) :
  Bytes.forallb Bytes.not_newline (NilEmpty.string_of_uint d) = true.
Proof. induction d; simpl; done. Qed.

Lemma str_no_newline (n : Z) :
  Bytes.forallb Bytes.not_newline (Bytes.str n) = true.
Proof.
  unfold Bytes.str, NilZero.string_of_int, NilZero.string_of_uint.
  destruct (Z.to_int n) as [d|d]; destruct d;
    simpl; try done; apply string_of_uint_no_newline.
Qed.

Lemma join_forallb (p : ascii -> bool) (sep : string) (l : list string) :
  Bytes.forallb p sep = true ->
  Forall (fun x => Bytes.forallb p x = true) l ->
  Bytes.forallb p (Bytes.join sep l) = true.
Proof.
  intros Hsep. induction 1 as [|x l Hx Hl IH]; [done|].
  destruct l as [|y l]; [done|].
  change (Bytes.join sep (x :: y :: l))
    with (x +:+ sep +:+ Bytes.join sep (y :: l)).
  by rewrite !bytes_forallb_app, Hx, Hsep, IH.
Qed.

Lemma data_to_token_ids_exists (open_creates : bool)
    (parent_exists : string -> bool)
    (data_path target_path vocabulary_path : string)
    (tokenizer : option tokenizer_t) (normalize_digits : bool)
    (fs : gmap string string) :
  is_Some (fs !! target_path) ->
  data_to_token_ids open_creates parent_exists data_path target_path vocabulary_path
                    tokenizer normalize_digits fs
  = (Ok tt, fs).
Proof.
  intros Ht. unfold data_to_token_ids.
  by rewrite (proj2 (gfile_Exists_true _ _) Ht).
Qed.

Lemma data_to_token_ids_encodes (open_creates : bool)
    (parent_exists : string -> bool)
    (data_path target_path vocabulary_path : string)
    (tokenizer : option tokenizer_t) (normalize_digits : bool)
    (fs : gmap string string) (vocabulary data : string) :
  fs !! target_path = None ->
  fs !! vocabulary_path = Some vocabulary ->
  fs !! data_path = Some data ->
  data_to_token_ids open_creates parent_exists data_path target_path vocabulary_path
                    tokenizer normalize_digits fs
  = gfile.close
      (foldl (fun st line =>
                gfile.write parent_exists
                  (ids_line
                     (dict (map (fun yx => (yx.2, yx.1))
                                (enumerate (map Bytes.strip
                                              (Bytes.readlines vocabulary)))))
                     tokenizer normalize_digits line) st)
             (gfile.GFile_w open_creates parent_exists target_path fs)
             (Bytes.readlines data)).
Proof.
  intros Ht Hv Hd. unfold data_to_token_ids.
  rewrite (proj2 (gfile_Exists_false _ _) Ht). simpl.
  rewrite (initialize_vocabulary_loads _ _ vocabulary) by done.
  unfold gfile.lines. by rewrite Hd.
Qed.

Lemma ids_lines_no_newline (vocab : gmap string Z)
    (tokenizer : option tokenizer_t) (nd : bool) (data : list string) :
  Forall (fun line =>
            Bytes.forallb Bytes.not_newline
              (Bytes.join " "
                 (map Bytes.str (sentence_to_token_ids line vocab tokenizer nd)))
            = true) data.
Proof.
  apply list.Forall_forall. intros line _. apply join_forallb; [done|].
  apply Forall_fmap, list.Forall_forall. intros id _. apply str_no_newline.
Qed.

(** C8, as amended: with a file already at [target_path],
    [data_to_token_ids] changes nothing.  With none there, with files at
    [vocabulary_path] and at [data_path], and with the directory of
    [target_path] in place, it succeeds and the lines it writes to
    [target_path] are, in order, one per line that the reader gives for
    the corpus: the decimal ids of [sentence_to_token_ids] for that line
    under the loaded vocabulary, joined by single spaces and closed by a
    line feed; no other file is touched. *)
Theorem data_to_token_ids_lines (open_creates : bool)
    (parent_exists : string -> bool)
    (data_path target_path vocabulary_path : string)
    (tokenizer : option tokenizer_t) (normalize_digits : bool)
    (fs : gmap string string) :
  let after :=
    data_to_token_ids open_creates parent_exists data_path target_path
                      vocabulary_path tokenizer normalize_digits fs in
  (is_Some (fs !! target_path) -> after = (Ok tt, fs)) /\
  (forall vocabulary data,
      fs !! target_path = None ->
      fs !! vocabulary_path = Some vocabulary ->
      fs !! data_path = Some data ->
      parent_exists target_path = true ->
      exists vocab rev_vocab,
        initialize_vocabulary fs vocabulary_path = Ok (vocab, rev_vocab) /\
        after.1 = Ok tt /\
        default EmptyString (after.2 !! target_path)
        = Bytes.join_empty
            (map (fun line =>
                    Bytes.join " "
                      (map Bytes.str
                         (sentence_to_token_ids line vocab tokenizer
                                                normalize_digits))
                    +:+ Bytes.LF)
                 (Bytes.readlines data)) /\
        file_lines after.2 target_path
        = map (fun line =>
                 Bytes.join " "
                   (map Bytes.str
                      (sentence_to_token_ids line vocab tokenizer
                                             normalize_digits))
                 +:+ Bytes.LF)
              (Bytes.readlines data) /\
        length (file_lines after.2 target_path)
        = length (Bytes.readlines data) /\
        (forall other, other <> target_path -> after.2 !! other = fs !! other)).
Proof.
  intros after. subst after. split; [apply data_to_token_ids_exists|].
  intros vocabulary data Ht Hv Hd Hdir. eexists _, _.
  split; [by apply initialize_vocabulary_loads|].
  rewrite (data_to_token_ids_encodes _ _ _ _ _ _ _ _ vocabulary data) by done.
  set (vocab := dict _).
  assert ((gfile.close
             (foldl (fun st line =>
                       gfile.write parent_exists
                         (ids_line vocab tokenizer normalize_digits line) st)
                    (gfile.GFile_w open_creates parent_exists target_path fs)
                    (Bytes.readlines data))).1 = Ok tt) as Hok.
  { rewrite gfile_write_all, Hdir. by case_match. }
  pose proof (gfile_write_all_content parent_exists
                (ids_line vocab tokenizer normalize_digits)
                open_creates target_path fs (Bytes.readlines data) Ht Hok)
    as Hcontent.
  assert (file_lines
            (gfile.close
               (foldl (fun st line =>
                         gfile.write parent_exists
                           (ids_line vocab tokenizer normalize_digits line) st)
                      (gfile.GFile_w open_creates parent_exists target_path fs)
                      (Bytes.readlines data))).2 target_path
          = map (fun line =>
                   Bytes.join " "
                     (map Bytes.str
                        (sentence_to_token_ids line vocab tokenizer
                                               normalize_digits))
                   +:+ Bytes.LF)
                (Bytes.readlines data)) as Hlines.
  { unfold file_lines.
    set (fs' := (gfile.close _).2) in *.
    destruct (fs' !! target_path) as [written|] eqn:Hw; simpl in Hcontent.
    - subst written. unfold ids_line.
      apply (readlines_join_lines
               (fun line => Bytes.join " "
                  (map Bytes.str
                     (sentence_to_token_ids line vocab tokenizer
                                            normalize_digits)))).
      apply ids_lines_no_newline.
    - destruct (Bytes.readlines data) as [|line lines]; [done|].
      unfold ids_line in Hcontent. simpl in Hcontent.
      rewrite bytes_app_assoc in Hcontent.
      destruct (Bytes.join _ _); discriminate Hcontent. }
  split; [exact Hok|].
  split; [exact Hcontent|].
  split; [exact Hlines|].
  split; [by rewrite Hlines, length_map|].
  intros other Hother. by apply gfile_write_all_other.
Qed.

Lemma data_to_token_ids_lines_witness :
  let fs : gmap string string :=
    {[ "vocab" := "_PAD" +:+ Bytes.LF +:+ "_GO" +:+ Bytes.LF +:+ "_EOS"
                  +:+ Bytes.LF +:+ "_UNK" +:+ Bytes.LF +:+ "the" +:+ Bytes.LF
                  +:+ "cat" +:+ Bytes.LF;
       "train.en" := "the cat" +:+ Bytes.LF +:+ "the dog" +:+ Bytes.LF ]} in
  length
    (file_lines
       (data_to_token_ids false in_cwd "train.en" "train.en.ids" "vocab"
          None true fs).2
       "train.en.ids")
  = 2%nat /\
  data_to_token_ids false in_cwd "train.en" "vocab" "vocab" None true fs
  = (Ok tt, fs).
Proof.
  intros fs. split.
  - destruct (proj2 (data_to_token_ids_lines false in_cwd "train.en"
                       "train.en.ids" "vocab" None true fs)
                (fs !!! "vocab") (fs !!! "train.en"))
      as (vocab & rev_vocab & _ & _ & _ & _ & Hlen & _).
    + vm_compute. reflexivity.
    + vm_compute. reflexivity.
    + vm_compute. reflexivity.
    + vm_compute. reflexivity.
    + rewrite Hlen. vm_compute. reflexivity.
  - apply (proj1 (data_to_token_ids_lines false in_cwd "train.en" "vocab"
                    "vocab" None true fs)).
    exists (fs !!! "vocab"). vm_compute. reflexivity.
Defined.

(** C8 as stated fails when the vocabulary file is missing, and when the
    directory of the target is: the target does not exist and the corpus
    has a line, yet the call raises and writes no line at all. *)
Lemma data_to_token_ids_no_vocabulary_counterexample :
  (let fs : gmap string string := {[ "train.en" := "the cat" +:+ Bytes.LF ]} in
   let after :=
     data_to_token_ids false all_dirs "train.en" "train.en.ids" "vocab"
                       None true fs in
   fs !! "train.en.ids" = None /\
   length (file_lines fs "train.en") = 1%nat /\
   after = (Raise (ValueError not_found_msg "vocab"), fs) /\
   length (file_lines after.2 "train.en.ids") = 0%nat) /\
  (let fs : gmap string string :=
     {[ "train.en" := "the cat" +:+ Bytes.LF;
        "vocab" := "the" +:+ Bytes.LF +:+ "cat" +:+ Bytes.LF ]} in
   let after :=
     data_to_token_ids false in_cwd "train.en" "out/train.en.ids" "vocab"
                       None true fs in
   fs !! "out/train.en.ids" = None /\
   length (file_lines fs "train.en") = 1%nat /\
   after = (Raise (NotFoundError "out/train.en.ids"), fs) /\
   length (file_lines after.2 "out/train.en.ids") = 0%nat).
Proof. repeat split; by vm_compute. Qed.

(** A line of the corpus with a carriage return inside is encoded as the
    reader yields it, here as the one word with id 6. *)
Example data_to_token_ids_carriage_return :
  let fs : gmap string string :=
    {[ "vocab" := Bytes.join_empty
                    (map (fun w => w +:+ Bytes.LF)
                         [_PAD; _GO; _EOS; _UNK; "b"; "c"; "bc"]);
       "train.en" := "b" +:+ Bytes.CR +:+ "c" +:+ Bytes.LF ]} in
  data_to_token_ids false all_dirs "train.en" "train.en.ids" "vocab"
                    None true fs
  = (Ok tt, <["train.en.ids" := "6" +:+ Bytes.LF]> fs).
Proof. by vm_compute. Qed.

(** The whole pipeline on a small corpus: build, load, encode. *)
Example pipeline_example :
  let fs : gmap string string :=
    {[ "train.en" := "the cat, the dog 2024" +:+ Bytes.LF
                     +:+ "the cat 1999" +:+ Bytes.LF ]} in
  let built := create_vocabulary false all_dirs "vocab" "train.en" 7 None true fs in
  let encoded :=
    data_to_token_ids false all_dirs "train.en" "train.en.ids" "vocab" None true built.2 in
  file_lines built.2 "vocab"
  = map (fun w => w +:+ Bytes.LF)
        [_PAD; _GO; _EOS; _UNK; "the"; "cat"; "0000"] /\
  encoded.1 = Ok tt /\
  file_lines encoded.2 "train.en.ids"
  = ["4 5 3 4 3 6" +:+ Bytes.LF; "4 5 6" +:+ Bytes.LF].
Proof. repeat split; by vm_compute. Qed.

(** ** Building, then loading *)

Lemma forallb_impl (p q : ascii -> bool) (s : string) :
  (forall c, p c = true -> q c = true) ->
  Bytes.forallb p s = true -> Bytes.forallb q s = true.
Proof.
  intros Hpq. induction s as [|c s IH]; simpl; [done|].
  intros [Hc Hs]%andb_prop. by rewrite (Hpq c Hc), IH.
Qed.

Lemma notspace_not_newline (c : ascii) :
  Bytes.notspace c = true -> Bytes.not_newline c = true.
Proof.
  unfold Bytes.not_newline. intros Hc.
  destruct (Ascii.eqb c Bytes.newline) eqn:Hn;
    [apply Ascii.eqb_eq in Hn; by subst c|].
  destruct (Ascii.eqb c Bytes.carriage_return) eqn:Hr;
    [apply Ascii.eqb_eq in Hr; by subst c | done].
Qed.

Lemma _DIGIT_RE_sub0_notspace (w : string) :
  Bytes.forallb Bytes.notspace w = true ->
  Bytes.forallb Bytes.notspace (_DIGIT_RE_sub0 w) = true.
Proof.
  induction w as [|c w IH]; simpl; [done|].
  intros [Hc Hw]%andb_prop. rewrite (IH Hw).
  destruct (Bytes.isdigit c); [done | by rewrite Hc].
Qed.

Lemma OrderedDict_keys_get (k : string) (d : OrderedDict.t) :
  k ∈ OrderedDict.keys d <-> is_Some (OrderedDict.get k d).
Proof.
  induction d as [|[k' v] d IH]; simpl.
  - split; [by intros ?%elem_of_nil | by intros [? ?]].
  - rewrite elem_of_cons, IH. destruct (decide (k' = k)) as [->|Hk].
    + split; eauto.
    + split; [by intros [->|?] | by right].
Qed.

Lemma count_words_keys (nd : bool) (ws : list string)
    (vocab : OrderedDict.t) (k : string) :
  is_Some (OrderedDict.get k (foldl (count_word nd) vocab ws)) ->
  is_Some (OrderedDict.get k vocab) \/ k ∈ map (normalize nd) ws.
Proof.
  revert vocab. induction ws as [|w ws IH]; intros vocab; simpl; [by left|].
  intros [Hk|Hk]%IH.
  - rewrite count_word_get in Hk.
    destruct (decide (normalize nd w = k)) as [<-|?]; [|by left].
    right. by left.
  - right. by right.
Qed.

Lemma count_lines_keys (tokenizer : option tokenizer_t) (nd : bool)
    (corpus : list string) (vocab : OrderedDict.t) (k : string) :
  is_Some (OrderedDict.get k (foldl (count_line tokenizer nd) vocab corpus)) ->
  is_Some (OrderedDict.get k vocab) \/ k ∈ corpus_words tokenizer nd corpus.
Proof.
  unfold corpus_words.
  revert vocab. induction corpus as [|line corpus IH]; intros vocab; simpl;
    [by left|].
  intros [Hk|Hk]%IH.
  - apply count_words_keys in Hk as [Hk|Hk]; [by left|].
    right. apply elem_of_app. by left.
  - right. apply elem_of_app. by right.
Qed.

(** Every entry of the vocabulary list is a reserved symbol or a word of
    the corpus. *)
Lemma vocab_list_of_entries (tokenizer : option tokenizer_t) (nd : bool)
    (corpus : list string) (max_vocabulary_size : Z) (w : string) :
  w ∈ vocab_list_of (count_corpus tokenizer nd corpus) max_vocabulary_size ->
  w ∈ _START_VOCAB \/ w ∈ corpus_words tokenizer nd corpus.
Proof.
  intros Hw.
  destruct (vocab_list_of_prefix (count_corpus tokenizer nd corpus)
              max_vocabulary_size) as [rest Hfull].
  assert (w ∈ _START_VOCAB ++
              sorted_reverse (vocab_get (count_corpus tokenizer nd corpus))
                (OrderedDict.keys (count_corpus tokenizer nd corpus))) as Hin.
  { rewrite Hfull. apply elem_of_app. by left. }
  apply elem_of_app in Hin as [Hin|Hin]; [by left|].
  rewrite sorted_reverse_perm in Hin.
  apply OrderedDict_keys_get, count_lines_keys in Hin as [[? Hin]|Hin];
    [done | by right].
Qed.

Lemma corpus_words_notspace (nd : bool) (corpus : list string) :
  Forall (fun w => Bytes.forallb Bytes.notspace w = true)
         (corpus_words None nd corpus).
Proof.
  unfold corpus_words. apply Forall_concat, Forall_fmap, list.Forall_forall.
  intros line _. simpl. apply Forall_fmap.
  eapply Forall_impl; [apply basic_tokenizer_tokens|].
  intros w [_ Hw]. simpl. destruct nd; simpl; [|done].
  by apply _DIGIT_RE_sub0_notspace.
Qed.

(** With the default tokenizer a vocabulary file that was built is loaded
    back as the list that was written. *)
Theorem vocabulary_round_trip (open_creates : bool)
    (parent_exists : string -> bool)
    (vocabulary_path data_path : string) (max_vocabulary_size : Z)
    (normalize_digits : bool) (fs : gmap string string) (content : string) :
  fs !! vocabulary_path = None ->
  fs !! data_path = Some content ->
  is_Some ((create_vocabulary open_creates parent_exists vocabulary_path data_path
              max_vocabulary_size None normalize_digits fs).2
           !! vocabulary_path) ->
  exists vocab,
    initialize_vocabulary
      (create_vocabulary open_creates parent_exists vocabulary_path data_path
         max_vocabulary_size None normalize_digits fs).2 vocabulary_path
    = Ok (vocab,
          vocab_list_of
            (count_corpus None normalize_digits (Bytes.readlines content))
            max_vocabulary_size).
Proof.
  intros Hv Hd.
  rewrite (create_vocabulary_builds _ _ _ _ _ _ _ fs content) by done.
  set (vocab_list := vocab_list_of _ _). rewrite gfile_write_all.
  destruct (open_creates || bool_decide (vocab_list <> []));
    [destruct (parent_exists vocabulary_path)|]; simpl;
    try (rewrite Hv; by intros [? ?]).
  intros _. eexists.
  rewrite (initialize_vocabulary_loads _ _ _ (lookup_insert_eq _ _ _)).
  do 2 f_equal.
  assert (Forall (fun w => Bytes.forallb Bytes.notspace w = true) vocab_list)
    as Hblank.
  { apply list.Forall_forall. intros w [Hin|Hin]%vocab_list_of_entries.
    - repeat (apply elem_of_cons in Hin as [->|Hin]; [done|]).
      by apply elem_of_nil in Hin.
    - pose proof (corpus_words_notspace normalize_digits
                    (Bytes.readlines content)) as Hall.
      rewrite list.Forall_forall in Hall. by apply Hall. }
  rewrite (readlines_join_lines id).
  - rewrite map_map. clear -Hblank.
    induction Hblank as [|x l Hx Hl IH]; simpl in *; [done|].
    by rewrite strip_token_line, IH.
  - eapply Forall_impl; [exact Hblank|]. intros x Hx. simpl.
    eapply forallb_impl; [apply notspace_not_newline | exact Hx].
Qed.

Lemma vocabulary_round_trip_witness :
  exists vocab,
    initialize_vocabulary
      (create_vocabulary false all_dirs "vocab" "train.en" 6 None true
         {[ "train.en" := "the cat, the dog" ]}).2 "vocab"
    = Ok (vocab,
          vocab_list_of
            (count_corpus None true (Bytes.readlines "the cat, the dog")) 6).
Proof.
  apply (vocabulary_round_trip false all_dirs "vocab" "train.en" 6 true
           {[ "train.en" := "the cat, the dog" ]} "the cat, the dog").
  - vm_compute. reflexivity.
  - vm_compute. reflexivity.
  - eexists. vm_compute. reflexivity.
Defined.

(** * Further properties *)

(** ** Tokenizer: fragments and blanks *)

Lemma split_run_blank_head (c : ascii) (s : string) :
  Bytes.isspace c = true ->
  Bytes.split_run (String c s) = (EmptyString, Bytes.split s).
Proof.
  intros Hc. unfold Bytes.split. simpl.
  destruct (Bytes.split_run s) as [run frags]. by rewrite Hc.
Qed.

Lemma split_run_app (s t : string) (frags_t : list string) :
  Bytes.split_run t = (EmptyString, frags_t) ->
  Bytes.split_run (s +:+ t)
  = ((Bytes.split_run s).1, (Bytes.split_run s).2 ++ frags_t).
Proof.
  intros Ht. induction s as [|c s IH].
  - by rewrite bytes_app_nil, Ht.
  - rewrite bytes_app_cons. simpl. rewrite IH.
    destruct (Bytes.split_run s) as [run frags]. simpl.
    destruct (Bytes.isspace c); [|done].
    by destruct (decide (run = EmptyString)).
Qed.

Lemma split_app_blank (s1 s2 : string) (c : ascii) :
  Bytes.isspace c = true ->
  Bytes.split (s1 +:+ String c s2) = Bytes.split s1 ++ Bytes.split s2.
Proof.
  intros Hc. unfold Bytes.split at 1 2.
  rewrite (split_run_app s1 _ _ (split_run_blank_head c s2 Hc)).
  destruct (Bytes.split_run s1) as [run frags]. simpl.
  by destruct (decide (run = EmptyString)).
Qed.

Lemma split_lstrip (s : string) : Bytes.split (Bytes.lstrip s) = Bytes.split s.
Proof.
  induction s as [|c s IH]; simpl; [done|].
  destruct (Bytes.isspace c) eqn:Hc; [|done].
  rewrite IH. unfold Bytes.split at 2. by rewrite split_run_blank_head.
Qed.

Lemma split_run_rstrip (s : string) :
  Bytes.split_run (Bytes.rstrip s) = Bytes.split_run s.
Proof.
  induction s as [|c s IH]; simpl; [done|].
  rewrite <- IH. destruct (Bytes.rstrip s) as [|d r]; [|done].
  destruct (Bytes.isspace c) eqn:Hc; simpl; by rewrite ?Hc.
Qed.

(** Stripping the line first does not change its fragments. *)
Lemma split_strip (s : string) : Bytes.split (Bytes.strip s) = Bytes.split s.
Proof.
  unfold Bytes.strip. rewrite split_lstrip. unfold Bytes.split.
  by rewrite split_run_rstrip.
Qed.

Lemma basic_tokenizer_split (sentence : string) :
  basic_tokenizer sentence =
  concat (map (fun f => filter (fun w => nonempty w = true) (_WORD_SPLIT_split f))
              (Bytes.split sentence)).
Proof. by rewrite basic_tokenizer_fragments, split_strip. Qed.

Lemma basic_tokenizer_join (sentence : string) :
  Bytes.join_empty (basic_tokenizer sentence)
  = Bytes.filter Bytes.notspace sentence.
Proof.
  rewrite basic_tokenizer_split, join_empty_concat, map_map.
  rewrite (map_ext _ id), map_id; [apply join_empty_split|].
  intros f. by rewrite join_empty_filter_nonempty, _WORD_SPLIT_split_join.
Qed.

Lemma filter_notspace_empty (s : string) :
  Bytes.filter Bytes.notspace s = EmptyString
  <-> Bytes.forallb Bytes.isspace s = true.
Proof.
  unfold Bytes.notspace. induction s as [|c s IH]; simpl; [done|].
  destruct (Bytes.isspace c); simpl; [exact IH | by split].
Qed.

Lemma tokenizer_app_blank (s1 s2 : string) (c : ascii) :
  Bytes.isspace c = true ->
  basic_tokenizer (s1 +:+ String c s2)
  = basic_tokenizer s1 ++ basic_tokenizer s2.
Proof.
  intros Hc. rewrite !basic_tokenizer_split, split_app_blank by done.
  by rewrite map_app, concat_app.
Qed.

(** X1: the tokens of a line followed by a blank byte and a second line
    are the tokens of the first line followed by those of the second: a
    token never spans a blank, and tokenizing is local to the pieces. *)
Theorem basic_tokenizer_app_blank (s1 s2 : string) (c : ascii) :
  Bytes.isspace c = true ->
  basic_tokenizer (s1 +:+ String c s2)
  = basic_tokenizer s1 ++ basic_tokenizer s2.
Proof.
  apply tokenizer_app_blank.
Qed.

Lemma basic_tokenizer_app_blank_witness :
  basic_tokenizer ("so, it" +:+ String Bytes.newline "is (not).")
  = basic_tokenizer "so, it" ++ basic_tokenizer "is (not).".
Proof.
  apply (basic_tokenizer_app_blank "so, it" "is (not)." Bytes.newline).
  reflexivity.
Defined.

(** X2: [basic_tokenizer] returns no token exactly for the lines that
    hold blank bytes only, the empty line among them. *)
Theorem basic_tokenizer_nil_iff_blank (sentence : string) :
  basic_tokenizer sentence = []
  <-> Bytes.forallb Bytes.isspace sentence = true.
Proof.
  rewrite <- filter_notspace_empty, <- basic_tokenizer_join. split.
  - by intros ->.
  - pose proof (basic_tokenizer_tokens sentence) as Htok.
    destruct (basic_tokenizer sentence) as [|w ws]; [done|].
    inversion Htok as [|? ? [Hw _] _]; subst. simpl.
    destruct w; [done|]. by rewrite bytes_app_cons.
Qed.

(** ** Tokenizer: the shape of a token *)

(** The pieces of a split alternate, starting with a run of unmatched
    bytes. *)
Lemma _WORD_SPLIT_split_head (s : string) :
  exists piece pieces,
    _WORD_SPLIT_split s = piece :: pieces /\
    Bytes.forallb not_split piece = true /\
    Forall (fun w =>
              Bytes.forallb not_split w = true \/
              exists c, _WORD_SPLIT_match c = true /\ w = String c EmptyString)
           pieces.
Proof.
  induction s as [|c s (piece & pieces & Hs & Hpiece & Hpieces)]; simpl.
  - by exists EmptyString, [].
  - destruct (_WORD_SPLIT_match c) eqn:Hc.
    + eexists _, _. split; [done|]. split; [done|].
      constructor; [right; eauto|]. rewrite Hs. constructor; [by left | done].
    + rewrite Hs. eexists _, _. split; [done|]. split; [|done].
      simpl. unfold not_split at 1. by rewrite Hc.
Qed.

Lemma _WORD_SPLIT_split_shape (s : string) :
  Forall (fun w =>
            Bytes.forallb not_split w = true \/
            exists c, _WORD_SPLIT_match c = true /\ w = String c EmptyString)
         (_WORD_SPLIT_split s).
Proof.
  destruct (_WORD_SPLIT_split_head s) as (piece & pieces & -> & Hpiece & Hpieces).
  constructor; [by left | done].
Qed.

Lemma basic_tokenizer_all_shaped (sentence : string) :
  Forall token_shape (basic_tokenizer sentence).
Proof.
  rewrite basic_tokenizer_fragments. apply Forall_concat, Forall_fmap.
  eapply Forall_impl; [apply split_fragments|].
  intros f [_ Hf]. simpl. apply list.Forall_forall.
  intros w [Hne Hw]%list_elem_of_filter.
  split; [intros ->; discriminate Hne|]. split.
  - pose proof (_WORD_SPLIT_split_pieces _ _ Hf) as Hall.
    rewrite list.Forall_forall in Hall. by apply Hall.
  - pose proof (_WORD_SPLIT_split_shape f) as Hshape.
    rewrite list.Forall_forall in Hshape. by apply Hshape.
Qed.

(** X3: every token of [basic_tokenizer] is either one punctuation byte
    of the split pattern on its own, or a non-empty run of bytes none of
    which is such a punctuation byte; it holds no blank. *)
Theorem basic_tokenizer_token_shape (sentence w : string) :
  w ∈ basic_tokenizer sentence ->
  w <> EmptyString /\
  Bytes.forallb Bytes.notspace w = true /\
  (Bytes.forallb not_split w = true \/
   exists c, c ∈ _WORD_SPLIT_class /\ w = String c EmptyString).
Proof.
  intros Hw. pose proof (basic_tokenizer_all_shaped sentence) as Hall.
  rewrite list.Forall_forall in Hall.
  destruct (Hall w Hw) as (Hne & Hblank & [Hrun|(c & Hc & ->)]); eauto.
  split; [done|]. split; [done|]. right. exists c. split; [|done].
  unfold _WORD_SPLIT_match in Hc. by apply bool_decide_eq_true in Hc.
Qed.

Lemma basic_tokenizer_token_shape_witness :
  "world" <> EmptyString /\
  Bytes.forallb Bytes.notspace "world" = true /\
  (Bytes.forallb not_split "world" = true \/
   exists c, c ∈ _WORD_SPLIT_class /\ "world" = String c EmptyString).
Proof.
  apply (basic_tokenizer_token_shape "Hello, world!" "world").
  vm_compute. apply list_elem_of_In. simpl. tauto.
Defined.

Lemma split_run_token (w : string) :
  Bytes.forallb Bytes.notspace w = true -> Bytes.split_run w = (w, []).
Proof.
  unfold Bytes.notspace. induction w as [|c w IH]; simpl; [done|].
  intros [Hc Hw]%andb_prop. rewrite (IH Hw).
  by destruct (Bytes.isspace c).
Qed.

Lemma _WORD_SPLIT_split_run (w : string) :
  Bytes.forallb not_split w = true -> _WORD_SPLIT_split w = [w].
Proof.
  unfold not_split. induction w as [|c w IH]; simpl; [done|].
  intros [Hc Hw]%andb_prop. rewrite (IH Hw).
  by destruct (_WORD_SPLIT_match c).
Qed.

(** A token is tokenized to itself. *)
Lemma basic_tokenizer_token (w : string) :
  token_shape w -> basic_tokenizer w = [w].
Proof.
  intros (Hne & Hblank & Hshape). rewrite basic_tokenizer_split.
  unfold Bytes.split. rewrite (split_run_token w Hblank).
  rewrite decide_False by done. simpl. rewrite app_nil_r.
  destruct Hshape as [Hrun|(c & Hc & ->)].
  - rewrite (_WORD_SPLIT_split_run w Hrun), filter_cons, filter_nil.
    destruct w; [done|]. by rewrite decide_True.
  - simpl. rewrite Hc. by vm_compute.
Qed.

Lemma basic_tokenizer_join_tokens (l : list string) :
  Forall token_shape l -> basic_tokenizer (Bytes.join " " l) = l.
Proof.
  induction 1 as [|w l Hw Hl IH]; [done|].
  destruct l as [|w' l]; [by apply basic_tokenizer_token|].
  change (Bytes.join " " (w :: w' :: l))
    with (w +:+ String " "%char (Bytes.join " " (w' :: l))).
  rewrite tokenizer_app_blank by done.
  by rewrite IH, basic_tokenizer_token.
Qed.

(** X4: joining the tokens of a line with single spaces and tokenizing
    again gives the same tokens: the token lists are exactly the lines in
    normal form. *)
Theorem basic_tokenizer_retokenize (sentence : string) :
  basic_tokenizer (Bytes.join " " (basic_tokenizer sentence))
  = basic_tokenizer sentence.
Proof. apply basic_tokenizer_join_tokens, basic_tokenizer_all_shaped. Qed.

(** ** Digit normalisation *)

(** X5: replacing digits keeps the length of a word, leaves no digit but
    zero in it, changes no byte that is not a digit, and is idempotent,
    so a word read back from a vocabulary built with normalisation is
    looked up unchanged. *)
Theorem _DIGIT_RE_sub0_normal_form (w : string) :
  String.length (_DIGIT_RE_sub0 w) = String.length w /\
  Bytes.forallb (fun c => negb (Bytes.isdigit c) || Ascii.eqb c "0")
                (_DIGIT_RE_sub0 w) = true /\
  Bytes.filter (fun c => negb (Bytes.isdigit c)) (_DIGIT_RE_sub0 w)
  = Bytes.filter (fun c => negb (Bytes.isdigit c)) w /\
  _DIGIT_RE_sub0 (_DIGIT_RE_sub0 w) = _DIGIT_RE_sub0 w.
Proof.
  induction w as [|c w (Hlen & Hzero & Hrest & Hidem)]; simpl; [done|].
  rewrite Hlen, Hzero, Hrest, Hidem.
  destruct (Bytes.isdigit c) eqn:Hc; simpl; [done|]. by rewrite Hc.
Qed.

(** ** The counting dictionary: keys and counts *)

Lemma count_words_keys_2 (nd : bool) (ws : list string)
    (vocab : OrderedDict.t) (k : string) :
  is_Some (OrderedDict.get k vocab) \/ k ∈ map (normalize nd) ws ->
  is_Some (OrderedDict.get k (foldl (count_word nd) vocab ws)).
Proof.
  revert vocab. induction ws as [|w ws IH]; intros vocab; simpl.
  - by intros [?|?%elem_of_nil].
  - intros Hk. apply IH. rewrite count_word_get.
    destruct (decide (normalize nd w = k)) as [Heq|Hne]; [left; eauto|].
    destruct Hk as [Hk|Hk]; [by left|].
    apply elem_of_cons in Hk as [->|Hk]; [done | by right].
Qed.

Lemma count_lines_keys_2 (tokenizer : option tokenizer_t) (nd : bool)
    (corpus : list string) (vocab : OrderedDict.t) (k : string) :
  is_Some (OrderedDict.get k vocab) \/ k ∈ corpus_words tokenizer nd corpus ->
  is_Some (OrderedDict.get k (foldl (count_line tokenizer nd) vocab corpus)).
Proof.
  unfold corpus_words.
  revert vocab. induction corpus as [|line corpus IH]; intros vocab; simpl.
  - by intros [?|?%elem_of_nil].
  - intros Hk. apply IH. destruct Hk as [Hk|Hk].
    + left. apply count_words_keys_2. by left.
    + apply elem_of_app in Hk as [Hk|Hk]; [|by right].
      left. apply count_words_keys_2. by right.
Qed.

(** The keys of the dictionary are the words of the corpus. *)
Lemma count_corpus_keys (tokenizer : option tokenizer_t) (nd : bool)
    (corpus : list string) (k : string) :
  k ∈ OrderedDict.keys (count_corpus tokenizer nd corpus)
  <-> k ∈ corpus_words tokenizer nd corpus.
Proof.
  rewrite OrderedDict_keys_get. unfold count_corpus. split.
  - intros [[? Hk]|Hk]%count_lines_keys; [done | done].
  - intros Hk. apply count_lines_keys_2. by right.
Qed.

Lemma OrderedDict_set_keys_NoDup (k : string) (v : nat) (d : OrderedDict.t) :
  NoDup (OrderedDict.keys d) -> NoDup (OrderedDict.keys (OrderedDict.set k v d)).
Proof.
  induction d as [|[k' v'] d IH]; simpl.
  - intros _. apply NoDup_singleton.
  - intros [Hk' Hd]%NoDup_cons.
    destruct (decide (k' = k)) as [->|Hne]; simpl; [by apply NoDup_cons|].
    apply NoDup_cons. split; [|by apply IH].
    rewrite OrderedDict_keys_get, OrderedDict_get_set, decide_False by done.
    by rewrite <- OrderedDict_keys_get.
Qed.

Lemma count_corpus_keys_NoDup (tokenizer : option tokenizer_t) (nd : bool)
    (corpus : list string) :
  NoDup (OrderedDict.keys (count_corpus tokenizer nd corpus)).
Proof.
  unfold count_corpus.
  assert (forall ws vocab, NoDup (OrderedDict.keys vocab) ->
            NoDup (OrderedDict.keys (foldl (count_word nd) vocab ws))) as Hwords.
  { induction ws as [|w ws IH]; intros vocab Hvocab; simpl; [done|].
    apply IH. rewrite count_word_set. by apply OrderedDict_set_keys_NoDup. }
  assert (forall vocab, NoDup (OrderedDict.keys vocab) ->
            NoDup (OrderedDict.keys
                     (foldl (count_line tokenizer nd) vocab corpus))) as Hlines.
  { induction corpus as [|line corpus IH]; intros vocab Hvocab; simpl; [done|].
    apply IH. by apply Hwords. }
  apply Hlines. constructor.
Qed.

Lemma occurrences_pos (tokenizer : option tokenizer_t) (nd : bool)
    (corpus : list string) (k : string) :
  k ∈ corpus_words tokenizer nd corpus
  <-> (1 <= occurrences tokenizer nd corpus k)%nat.
Proof.
  unfold occurrences. generalize (corpus_words tokenizer nd corpus) as ws.
  induction ws as [|w ws IH]; simpl.
  - split; [by intros ?%elem_of_nil | lia].
  - rewrite elem_of_cons, filter_cons.
    destruct (decide (w = k)) as [->|Hne]; simpl.
    + split; [lia | by left].
    + rewrite <- IH. split; [by intros [->|?] | by right].
Qed.

(** X6: after counting, a word that occurs in the corpus (normalised when
    that is asked for) is a key of the dictionary and its stored count is
    the number of its occurrences, at least one; a word that does not
    occur is no key. *)
Theorem count_corpus_get (tokenizer : option tokenizer_t)
    (normalize_digits : bool) (corpus : list string) (word : string) :
  OrderedDict.get word (count_corpus tokenizer normalize_digits corpus)
  = (if decide (word ∈ corpus_words tokenizer normalize_digits corpus)
     then Some (occurrences tokenizer normalize_digits corpus word)
     else None) /\
  (word ∈ corpus_words tokenizer normalize_digits corpus
   <-> (1 <= occurrences tokenizer normalize_digits corpus word)%nat).
Proof.
  split; [|apply occurrences_pos].
  pose proof (vocab_get_count_corpus tokenizer normalize_digits corpus word)
    as Hcount.
  pose proof (count_corpus_keys tokenizer normalize_digits corpus word) as Hkey.
  rewrite OrderedDict_keys_get in Hkey. unfold vocab_get in Hcount.
  destruct (decide (word ∈ _)) as [Hin|Hout].
  - apply Hkey in Hin as [n Hn]. rewrite Hn in Hcount |- *. simpl in Hcount.
    by rewrite Hcount.
  - destruct (OrderedDict.get word _) as [n|] eqn:Hn; [|done].
    destruct Hout. apply Hkey. eauto.
Qed.

(** ** The vocabulary list: size, content, distinctness *)

Lemma sorted_keys_length (vocab : OrderedDict.t) :
  length (sorted_reverse (vocab_get vocab) (OrderedDict.keys vocab))
  = length vocab.
Proof.
  rewrite (Permutation_length (sorted_reverse_perm _ _)).
  unfold OrderedDict.keys. by rewrite length_map.
Qed.

Lemma vocab_list_of_length_min (vocab : OrderedDict.t) (max_vocabulary_size : Z) :
  0 <= max_vocabulary_size ->
  length (vocab_list_of vocab max_vocabulary_size)
  = Nat.min (Z.to_nat max_vocabulary_size) (4 + length vocab).
Proof.
  intros Hmax. unfold vocab_list_of.
  assert (length (_START_VOCAB ++
                  sorted_reverse (vocab_get vocab) (OrderedDict.keys vocab))
          = (4 + length vocab)%nat) as Hfull.
  { by rewrite length_app, sorted_keys_length. }
  case_match eqn:Hlen.
  - unfold slice_to. rewrite (proj2 (Z.leb_le _ _) Hmax), length_take, Hfull.
    rewrite Hfull in Hlen. lia.
  - rewrite Hfull in Hlen |- *. rewrite Z.gtb_ltb in Hlen.
    apply Z.ltb_ge in Hlen. lia.
Qed.

(** X7: for a non-negative [max_vocabulary_size] the vocabulary list has
    exactly as many entries as the smaller of [max_vocabulary_size] and
    four plus the number of distinct words of the corpus: it is cut when
    there are more words than room, and never padded. *)
Theorem vocab_list_of_length_exact (tokenizer : option tokenizer_t)
    (normalize_digits : bool) (corpus : list string)
    (max_vocabulary_size : Z) :
  0 <= max_vocabulary_size ->
  length (vocab_list_of (count_corpus tokenizer normalize_digits corpus)
                        max_vocabulary_size)
  = Nat.min (Z.to_nat max_vocabulary_size)
            (4 + length (remove_dups
                           (corpus_words tokenizer normalize_digits corpus))).
Proof.
  intros Hmax. rewrite vocab_list_of_length_min by done. f_equal. f_equal.
  rewrite <- (length_map fst). apply Permutation_length, NoDup_Permutation.
  - apply count_corpus_keys_NoDup.
  - apply NoDup_remove_dups.
  - intros w. rewrite elem_of_remove_dups. apply count_corpus_keys.
Qed.

Lemma vocab_list_of_length_exact_witness :
  length (vocab_list_of (count_corpus None true ["a b c d e"; "f g a b"]) 5)
  = Nat.min (Z.to_nat 5)
      (4 + length (remove_dups (corpus_words None true ["a b c d e"; "f g a b"]))).
Proof.
  apply (vocab_list_of_length_exact None true ["a b c d e"; "f g a b"] 5). lia.
Defined.

(** X8: truncation keeps the most frequent words: a word of the corpus
    that is not in the vocabulary list occurs no more often than any word
    that stands in the list after the four reserved symbols. *)
Theorem vocab_list_of_keeps_most_frequent (tokenizer : option tokenizer_t)
    (normalize_digits : bool) (corpus : list string)
    (max_vocabulary_size : Z) (dropped kept : string) (i : nat) :
  dropped ∈ corpus_words tokenizer normalize_digits corpus ->
  dropped ∉ vocab_list_of (count_corpus tokenizer normalize_digits corpus)
                          max_vocabulary_size ->
  (4 <= i)%nat ->
  vocab_list_of (count_corpus tokenizer normalize_digits corpus)
                max_vocabulary_size !! i = Some kept ->
  (occurrences tokenizer normalize_digits corpus dropped
   <= occurrences tokenizer normalize_digits corpus kept)%nat.
Proof.
  intros Hword Hdropped Hi Hkept.
  set (vocab := count_corpus tokenizer normalize_digits corpus) in *.
  destruct (vocab_list_of_prefix vocab max_vocabulary_size) as [rest Hfull].
  assert (dropped ∈ rest) as Hrest.
  { apply count_corpus_keys in Hword. fold vocab in Hword.
    rewrite <- (sorted_reverse_perm (vocab_get vocab)) in Hword.
    assert (dropped ∈ vocab_list_of vocab max_vocabulary_size ++ rest) as Hin.
    { rewrite <- Hfull. apply elem_of_app. by right. }
    by apply elem_of_app in Hin as [?|?]. }
  apply list_elem_of_lookup in Hrest as [j Hj].
  pose proof (lookup_lt_Some _ _ _ Hkept) as Hlt.
  assert ((_START_VOCAB ++
           sorted_reverse (vocab_get vocab) (OrderedDict.keys vocab))
          !! (length (vocab_list_of vocab max_vocabulary_size) + j)%nat
          = Some dropped) as Hd.
  { rewrite Hfull. by rewrite lookup_app_r, Nat.add_comm, Nat.add_sub by lia. }
  rewrite lookup_app_r in Hd by (simpl; lia).
  apply vocab_list_of_tail in Hkept; [|done].
  unfold vocab. rewrite <- !vocab_get_count_corpus. fold vocab.
  eapply (sorted_lookup_ge _ _ (i - 4) _ kept dropped);
    [apply sorted_reverse_sorted | | exact Hkept | exact Hd].
  simpl. lia.
Qed.

Lemma vocab_list_of_keeps_most_frequent_witness :
  (occurrences None true ["a b a c"; "a b"] "c"
   <= occurrences None true ["a b a c"; "a b"] "b")%nat.
Proof.
  apply (vocab_list_of_keeps_most_frequent None true ["a b a c"; "a b"] 6
           "c" "b" 5).
  - vm_compute. apply list_elem_of_In. simpl. tauto.
  - vm_compute. intros Hin. apply list_elem_of_In in Hin. simpl in Hin.
    repeat (destruct Hin as [Hin|Hin]; [discriminate Hin|]). done.
  - lia.
  - vm_compute. reflexivity.
Defined.

Lemma vocab_list_fresh_NoDup (tokenizer : option tokenizer_t) (nd : bool)
    (corpus : list string) (max_vocabulary_size : Z) :
  Forall (fun w => w ∉ corpus_words tokenizer nd corpus) _START_VOCAB ->
  NoDup (vocab_list_of (count_corpus tokenizer nd corpus) max_vocabulary_size).
Proof.
  intros Hreserved.
  destruct (vocab_list_of_prefix (count_corpus tokenizer nd corpus)
              max_vocabulary_size) as [rest Hfull].
  assert (NoDup (_START_VOCAB ++
                 sorted_reverse (vocab_get (count_corpus tokenizer nd corpus))
                   (OrderedDict.keys (count_corpus tokenizer nd corpus))))
    as Hnodup.
  { apply NoDup_app. split; [|split].
    - apply NoDup_ListNoDup. repeat constructor; simpl; intuition discriminate.
    - intros w Hw. rewrite sorted_reverse_perm, count_corpus_keys.
      rewrite list.Forall_forall in Hreserved. by apply Hreserved.
    - rewrite sorted_reverse_perm. apply count_corpus_keys_NoDup. }
  rewrite Hfull in Hnodup. by apply NoDup_app in Hnodup as [? _].
Qed.

(** X9: when no word of the corpus is one of the four reserved symbols,
    the vocabulary list holds no entry twice, so every line of the
    vocabulary file is a different token. *)
Theorem vocab_list_of_NoDup (tokenizer : option tokenizer_t)
    (normalize_digits : bool) (corpus : list string)
    (max_vocabulary_size : Z) :
  Forall (fun w => w ∉ corpus_words tokenizer normalize_digits corpus)
         _START_VOCAB ->
  NoDup (vocab_list_of (count_corpus tokenizer normalize_digits corpus)
                       max_vocabulary_size).
Proof. apply vocab_list_fresh_NoDup. Qed.

Lemma vocab_list_of_NoDup_witness :
  NoDup (vocab_list_of (count_corpus None true ["a b a"]) 100).
Proof.
  apply (vocab_list_of_NoDup None true ["a b a"] 100).
  vm_compute. repeat constructor; intros Hin; apply list_elem_of_In in Hin;
    simpl in Hin; intuition discriminate.
Defined.

(** A corpus that holds a reserved symbol as a word makes it appear
    twice. *)
Example vocab_list_of_reserved_word :
  vocab_list_of (count_corpus None true ["_UNK is a word"]) 100
  = [_PAD; _GO; _EOS; _UNK; "_UNK"; "is"; "a"; "word"].
Proof. by vm_compute. Qed.

(** ** Loading and encoding *)

Lemma initialize_vocabulary_Ok_inv (fs : gmap string string)
    (vocabulary_path : string) (vocab : gmap string Z)
    (rev_vocab : list string) :
  initialize_vocabulary fs vocabulary_path = Ok (vocab, rev_vocab) ->
  exists content,
    fs !! vocabulary_path = Some content /\
    rev_vocab = map Bytes.strip (Bytes.readlines content) /\
    vocab = dict (map (fun yx => (yx.2, yx.1)) (enumerate rev_vocab)).
Proof.
  intros Hinit. destruct (fs !! vocabulary_path) as [content|] eqn:Hfs.
  - rewrite (initialize_vocabulary_loads _ _ content) in Hinit by done.
    injection Hinit as <- <-. eauto.
  - by rewrite initialize_vocabulary_missing in Hinit.
Qed.

Lemma index_lookup_NoDup (rev_vocab : list string) (t : string) (i : nat) :
  NoDup rev_vocab ->
  dict (map (fun yx => (yx.2, yx.1)) (enumerate rev_vocab)) !! t
    = Some (Z.of_nat i)
  <-> rev_vocab !! i = Some t.
Proof.
  intros Hnodup. rewrite index_lookup. split.
  - intros (j & Hj & Ht & _). by apply Nat2Z.inj in Hj as ->.
  - intros Ht. exists i. split; [done|]. split; [done|].
    intros k Hk Hkt.
    pose proof (NoDup_lookup _ _ _ _ Hnodup Ht Hkt). lia.
Qed.

(** X10: when the lines of a vocabulary file are pairwise different
    after stripping, the loaded mapping and list are inverse to each
    other: a token has id [i] exactly when position [i] of the list holds
    it. *)
Theorem initialize_vocabulary_bijection (fs : gmap string string)
    (vocabulary_path : string) (vocab : gmap string Z)
    (rev_vocab : list string) (t : string) (i : nat) :
  initialize_vocabulary fs vocabulary_path = Ok (vocab, rev_vocab) ->
  NoDup rev_vocab ->
  (vocab !! t = Some (Z.of_nat i) <-> rev_vocab !! i = Some t).
Proof.
  intros (content & _ & _ & ->)%initialize_vocabulary_Ok_inv Hnodup.
  by apply index_lookup_NoDup.
Qed.

Lemma initialize_vocabulary_bijection_witness :
  dict (map (fun yx => (yx.2, yx.1)) (enumerate ["_PAD"; "_GO"; "x"])) !! "x"
    = Some (Z.of_nat 2)
  <-> ["_PAD"; "_GO"; "x"] !! 2%nat = Some "x".
Proof.
  apply (initialize_vocabulary_bijection
           {[ "vocab" := "_PAD" +:+ Bytes.LF +:+ "_GO" +:+ Bytes.LF +:+ "x" ]}
           "vocab"
           (dict (map (fun yx => (yx.2, yx.1)) (enumerate ["_PAD"; "_GO"; "x"])))
           ["_PAD"; "_GO"; "x"] "x" 2).
  - vm_compute. reflexivity.
  - apply NoDup_ListNoDup. repeat constructor; simpl; intuition discriminate.
Defined.

(** Ids of listed tokens point back at them. *)
Lemma index_encode_decode (rev_vocab : list string) (w : string) :
  w ∈ rev_vocab ->
  exists j : nat,
    default UNK_ID
      (dict (map (fun yx => (yx.2, yx.1)) (enumerate rev_vocab)) !! w)
    = Z.of_nat j /\
    rev_vocab !! j = Some w.
Proof.
  intros [id Hid]%index_dom. rewrite Hid. simpl.
  apply index_lookup in Hid as (j & -> & Hj & _). eauto.
Qed.

Lemma encode_decode_tokens (rev_vocab : list string) (sentence : string)
    (tokenizer : option tokenizer_t) (nd : bool) :
  Forall (fun w => normalize nd w ∈ rev_vocab) (tokenize tokenizer sentence) ->
  Forall2 (fun w id =>
             0 <= id /\ rev_vocab !! Z.to_nat id = Some (normalize nd w))
          (tokenize tokenizer sentence)
          (sentence_to_token_ids sentence
             (dict (map (fun yx => (yx.2, yx.1)) (enumerate rev_vocab)))
             tokenizer nd).
Proof.
  rewrite sentence_to_token_ids_lookup.
  induction 1 as [|w ws Hw Hws IH]; simpl; constructor; [|done].
  destruct (index_encode_decode _ _ Hw) as (j & -> & Hj).
  split; [lia|]. by rewrite Nat2Z.id.
Qed.

(** X11: decoding undoes encoding.  For a loaded vocabulary and a
    sentence all of whose tokens (normalised when that is asked for) are
    in the vocabulary, every id returned by [sentence_to_token_ids] is a
    position of the token list, and that position holds the token. *)
Theorem sentence_to_token_ids_decode (fs : gmap string string)
    (vocabulary_path : string) (vocab : gmap string Z)
    (rev_vocab : list string) (sentence : string)
    (tokenizer : option tokenizer_t) (normalize_digits : bool) :
  initialize_vocabulary fs vocabulary_path = Ok (vocab, rev_vocab) ->
  Forall (fun w => normalize normalize_digits w ∈ rev_vocab)
         (tokenize tokenizer sentence) ->
  Forall2 (fun w id =>
             0 <= id /\
             rev_vocab !! Z.to_nat id = Some (normalize normalize_digits w))
          (tokenize tokenizer sentence)
          (sentence_to_token_ids sentence vocab tokenizer normalize_digits).
Proof.
  intros (content & _ & _ & ->)%initialize_vocabulary_Ok_inv.
  apply encode_decode_tokens.
Qed.

Lemma sentence_to_token_ids_decode_witness :
  Forall2 (fun w id =>
             0 <= id /\
             ["_PAD"; "_GO"; "_EOS"; "_UNK"; "the"; "0"] !! Z.to_nat id
             = Some (normalize true w))
          (tokenize None "the 7")
          (sentence_to_token_ids "the 7"
             (dict (map (fun yx => (yx.2, yx.1))
                        (enumerate ["_PAD"; "_GO"; "_EOS"; "_UNK"; "the"; "0"])))
             None true).
Proof.
  apply (sentence_to_token_ids_decode
           {[ "vocab" := "_PAD" +:+ Bytes.LF +:+ "_GO" +:+ Bytes.LF +:+ "_EOS"
                         +:+ Bytes.LF +:+ "_UNK" +:+ Bytes.LF +:+ "the"
                         +:+ Bytes.LF +:+ "0" +:+ Bytes.LF ]}
           "vocab").
  - vm_compute. reflexivity.
  - vm_compute. repeat constructor; apply list_elem_of_In; simpl; tauto.
Defined.

(** X12: with a loaded vocabulary every id that [sentence_to_token_ids]
    returns is [UNK_ID] or a position of the token list; the ids are all
    below the vocabulary size as soon as the file has four lines. *)
Theorem sentence_to_token_ids_range (fs : gmap string string)
    (vocabulary_path : string) (vocab : gmap string Z)
    (rev_vocab : list string) (sentence : string)
    (tokenizer : option tokenizer_t) (normalize_digits : bool) :
  initialize_vocabulary fs vocabulary_path = Ok (vocab, rev_vocab) ->
  Forall (fun id => id = UNK_ID \/ 0 <= id < Z.of_nat (length rev_vocab))
         (sentence_to_token_ids sentence vocab tokenizer normalize_digits) /\
  ((4 <= length rev_vocab)%nat ->
   Forall (fun id => 0 <= id < Z.of_nat (length rev_vocab))
          (sentence_to_token_ids sentence vocab tokenizer normalize_digits)).
Proof.
  intros (content & _ & _ & ->)%initialize_vocabulary_Ok_inv.
  assert (Forall (fun id => id = UNK_ID \/ 0 <= id < Z.of_nat (length rev_vocab))
            (sentence_to_token_ids sentence
               (dict (map (fun yx => (yx.2, yx.1)) (enumerate rev_vocab)))
               tokenizer normalize_digits)) as Hrange.
  { rewrite sentence_to_token_ids_lookup. apply Forall_fmap, list.Forall_forall.
    intros w _. simpl.
    destruct (dict _ !! normalize normalize_digits w) as [id|] eqn:Hid;
      simpl; [|by left].
    apply index_lookup in Hid as (j & -> & Hj & _).
    apply lookup_lt_Some in Hj. right. lia. }
  split; [exact Hrange|]. intros Hlen.
  eapply Forall_impl; [exact Hrange|]. intros id [->|?]; [|done].
  unfold UNK_ID. lia.
Qed.

Lemma sentence_to_token_ids_range_witness :
  Forall (fun id => id = UNK_ID \/ 0 <= id < Z.of_nat (length ["_PAD"; "_GO"]))
         (sentence_to_token_ids "_GO west"
            (dict (map (fun yx => (yx.2, yx.1)) (enumerate ["_PAD"; "_GO"])))
            None true).
Proof.
  apply (sentence_to_token_ids_range
           {[ "vocab" := "_PAD" +:+ Bytes.LF +:+ "_GO" +:+ Bytes.LF ]} "vocab"
           (dict (map (fun yx => (yx.2, yx.1)) (enumerate ["_PAD"; "_GO"])))
           ["_PAD"; "_GO"] "_GO west" None true).
  vm_compute. reflexivity.
Defined.

(** With fewer than four lines in the file, [UNK_ID] is not a position of
    the list. *)
Example sentence_to_token_ids_short_vocabulary :
  sentence_to_token_ids "_GO west"
    (dict (map (fun yx => (yx.2, yx.1)) (enumerate ["_PAD"; "_GO"]))) None true
  = [1; 3].
Proof. by vm_compute. Qed.

(** ** What the two writers leave alone *)

Section writers.
Context (f : string -> string).

Lemma gfile_write_all_subseteq (open_creates : bool)
    (parent_exists : string -> bool) (path : string)
    (fs : gmap string string) (l : list string) :
  fs !! path = None ->
  fs ⊆ (gfile.close
          (foldl (fun st w => gfile.write parent_exists (f w) st)
                 (gfile.GFile_w open_creates parent_exists path fs) l)).2.
Proof.
  intros Hfs. rewrite gfile_write_all.
  repeat case_match; simpl; [by apply insert_subseteq | done..].
Qed.

End writers.

Lemma create_vocabulary_other (open_creates : bool)
    (parent_exists : string -> bool)
    (vocabulary_path data_path : string) (max_vocabulary_size : Z)
    (tokenizer : option tokenizer_t) (normalize_digits : bool)
    (fs : gmap string string) (other : string) :
  other <> vocabulary_path ->
  (create_vocabulary open_creates parent_exists vocabulary_path data_path
     max_vocabulary_size tokenizer normalize_digits fs).2 !! other
  = fs !! other.
Proof.
  intros Hother. unfold create_vocabulary.
  destruct (gfile.Exists fs vocabulary_path); simpl; [done|].
  destruct (gfile.lines fs data_path); [|done].
  by apply (gfile_write_all_other parent_exists (fun w => w +:+ Bytes.LF)).
Qed.

Lemma create_vocabulary_subseteq (open_creates : bool)
    (parent_exists : string -> bool)
    (vocabulary_path data_path : string) (max_vocabulary_size : Z)
    (tokenizer : option tokenizer_t) (normalize_digits : bool)
    (fs : gmap string string) :
  fs ⊆ (create_vocabulary open_creates parent_exists vocabulary_path data_path
          max_vocabulary_size tokenizer normalize_digits fs).2.
Proof.
  unfold create_vocabulary.
  destruct (gfile.Exists fs vocabulary_path) eqn:Hv; simpl; [done|].
  destruct (gfile.lines fs data_path); [|done].
  apply (gfile_write_all_subseteq (fun w => w +:+ Bytes.LF)).
  by apply gfile_Exists_false.
Qed.

Lemma data_to_token_ids_other (open_creates : bool)
    (parent_exists : string -> bool)
    (data_path target_path vocabulary_path : string)
    (tokenizer : option tokenizer_t) (normalize_digits : bool)
    (fs : gmap string string) (other : string) :
  other <> target_path ->
  (data_to_token_ids open_creates parent_exists data_path target_path vocabulary_path
     tokenizer normalize_digits fs).2 !! other
  = fs !! other.
Proof.
  intros Hother. unfold data_to_token_ids.
  destruct (gfile.Exists fs target_path); simpl; [done|].
  destruct (initialize_vocabulary fs vocabulary_path) as [[vocab rev]|];
    simpl; [|done].
  destruct (gfile.lines fs data_path); [|done].
  by apply (gfile_write_all_other parent_exists
              (ids_line vocab tokenizer normalize_digits)).
Qed.

Lemma data_to_token_ids_subseteq (open_creates : bool)
    (parent_exists : string -> bool)
    (data_path target_path vocabulary_path : string)
    (tokenizer : option tokenizer_t) (normalize_digits : bool)
    (fs : gmap string string) :
  fs ⊆ (data_to_token_ids open_creates parent_exists data_path target_path vocabulary_path
          tokenizer normalize_digits fs).2.
Proof.
  unfold data_to_token_ids.
  destruct (gfile.Exists fs target_path) eqn:Ht; simpl; [done|].
  destruct (initialize_vocabulary fs vocabulary_path) as [[vocab rev]|];
    simpl; [|done].
  destruct (gfile.lines fs data_path); [|done].
  apply (gfile_write_all_subseteq (ids_line vocab tokenizer normalize_digits)).
  by apply gfile_Exists_false.
Qed.

(** X13: [create_vocabulary] never changes or removes a file that is
    there, the corpus included: every file of the old state is in the new
    one with the same content, and the only path at which a file can
    appear is [vocabulary_path].  This holds for failing calls too. *)
Theorem create_vocabulary_preserves_files (open_creates : bool)
    (parent_exists : string -> bool)
    (vocabulary_path data_path : string) (max_vocabulary_size : Z)
    (tokenizer : option tokenizer_t) (normalize_digits : bool)
    (fs : gmap string string) :
  fs ⊆ (create_vocabulary open_creates parent_exists vocabulary_path data_path
          max_vocabulary_size tokenizer normalize_digits fs).2 /\
  forall other,
    other <> vocabulary_path ->
    (create_vocabulary open_creates parent_exists vocabulary_path data_path
       max_vocabulary_size tokenizer normalize_digits fs).2 !! other
    = fs !! other.
Proof.
  split; [apply create_vocabulary_subseteq|].
  intros other. apply create_vocabulary_other.
Qed.

Lemma create_vocabulary_preserves_files_witness :
  (create_vocabulary true all_dirs "vocab" "train.en" 5 None true
     {[ "train.en" := "a b" ]}).2 !! "train.en"
  = Some "a b".
Proof.
  rewrite (proj2 (create_vocabulary_preserves_files true all_dirs "vocab" "train.en" 5
                    None true {[ "train.en" := "a b" ]}) "train.en").
  - vm_compute. reflexivity.
  - discriminate.
Defined.

(** X14: [data_to_token_ids] never changes or removes a file that is
    there: every file of the old state is in the new one with the same
    content, and the only path at which a file can appear is
    [target_path].  This holds for failing calls too. *)
Theorem data_to_token_ids_preserves_files (open_creates : bool)
    (parent_exists : string -> bool)
    (data_path target_path vocabulary_path : string)
    (tokenizer : option tokenizer_t) (normalize_digits : bool)
    (fs : gmap string string) :
  fs ⊆ (data_to_token_ids open_creates parent_exists data_path target_path vocabulary_path
          tokenizer normalize_digits fs).2 /\
  forall other,
    other <> target_path ->
    (data_to_token_ids open_creates parent_exists data_path target_path vocabulary_path
       tokenizer normalize_digits fs).2 !! other
    = fs !! other.
Proof.
  split; [apply data_to_token_ids_subseteq|].
  intros other. apply data_to_token_ids_other.
Qed.

Lemma data_to_token_ids_preserves_files_witness :
  (data_to_token_ids true all_dirs "train.en" "train.en.ids" "vocab" None true
     {[ "train.en" := "a b"; "vocab" := "a" ]}).2 !! "vocab"
  = Some "a".
Proof.
  rewrite (proj2 (data_to_token_ids_preserves_files true all_dirs "train.en"
                    "train.en.ids" "vocab" None true
                    {[ "train.en" := "a b"; "vocab" := "a" ]}) "vocab").
  - vm_compute. reflexivity.
  - discriminate.
Defined.

Lemma data_to_token_ids_no_vocabulary (open_creates : bool)
    (parent_exists : string -> bool)
    (data_path target_path vocabulary_path : string)
    (tokenizer : option tokenizer_t) (normalize_digits : bool)
    (fs : gmap string string) :
  fs !! target_path = None ->
  fs !! vocabulary_path = None ->
  data_to_token_ids open_creates parent_exists data_path target_path vocabulary_path
                    tokenizer normalize_digits fs
  = (Raise (ValueError not_found_msg vocabulary_path), fs).
Proof.
  intros Ht Hv. unfold data_to_token_ids.
  rewrite (proj2 (gfile_Exists_false _ _) Ht). simpl.
  by rewrite initialize_vocabulary_missing.
Qed.

Lemma data_to_token_ids_no_corpus (open_creates : bool)
    (parent_exists : string -> bool)
    (data_path target_path vocabulary_path : string)
    (tokenizer : option tokenizer_t) (normalize_digits : bool)
    (fs : gmap string string) :
  fs !! target_path = None ->
  is_Some (fs !! vocabulary_path) ->
  fs !! data_path = None ->
  data_to_token_ids open_creates parent_exists data_path target_path vocabulary_path
                    tokenizer normalize_digits fs
  = (Raise (NotFoundError data_path), fs).
Proof.
  intros Ht [vocabulary Hv] Hd. unfold data_to_token_ids.
  rewrite (proj2 (gfile_Exists_false _ _) Ht). simpl.
  rewrite (initialize_vocabulary_loads _ _ vocabulary) by done.
  unfold gfile.lines. by rewrite Hd.
Qed.

(** X15: the failures of [data_to_token_ids].  With no file at
    [target_path]: a missing vocabulary file raises the vocabulary's
    [ValueError], whether or not the corpus exists; with the vocabulary
    there, a missing corpus raises the not-found error of the corpus.  In
    both cases the file system is unchanged, so no target file, not even
    an empty one, is left behind. *)
Theorem data_to_token_ids_failures (open_creates : bool)
    (parent_exists : string -> bool)
    (data_path target_path vocabulary_path : string)
    (tokenizer : option tokenizer_t) (normalize_digits : bool)
    (fs : gmap string string) :
  fs !! target_path = None ->
  (fs !! vocabulary_path = None ->
   data_to_token_ids open_creates parent_exists data_path target_path vocabulary_path
                     tokenizer normalize_digits fs
   = (Raise (ValueError not_found_msg vocabulary_path), fs)) /\
  (is_Some (fs !! vocabulary_path) -> fs !! data_path = None ->
   data_to_token_ids open_creates parent_exists data_path target_path vocabulary_path
                     tokenizer normalize_digits fs
   = (Raise (NotFoundError data_path), fs)).
Proof.
  intros Ht. split.
  - by apply data_to_token_ids_no_vocabulary.
  - by apply data_to_token_ids_no_corpus.
Qed.

Lemma data_to_token_ids_failures_witness :
  data_to_token_ids false all_dirs "train.en" "train.en.ids" "vocab" None true
    {[ "train.en" := "a b" ]}
  = (Raise (ValueError not_found_msg "vocab"), {[ "train.en" := "a b" ]}) /\
  data_to_token_ids true all_dirs "train.en" "train.en.ids" "vocab" None true
    {[ "vocab" := "_PAD" ]}
  = (Raise (NotFoundError "train.en"), {[ "vocab" := "_PAD" ]}).
Proof.
  split.
  - refine (proj1 (data_to_token_ids_failures false all_dirs "train.en" "train.en.ids"
                     "vocab" None true {[ "train.en" := "a b" ]} _) _).
    + vm_compute. reflexivity.
    + vm_compute. reflexivity.
  - refine (proj2 (data_to_token_ids_failures true all_dirs "train.en" "train.en.ids"
                     "vocab" None true {[ "vocab" := "_PAD" ]} _) _ _).
    + vm_compute. reflexivity.
    + exists "_PAD". vm_compute. reflexivity.
    + vm_compute. reflexivity.
Defined.

(** X16: [data_to_token_ids] is idempotent in every state: a second call
    with the same arguments returns what the first returned and leaves
    the files as the first left them. *)
Theorem data_to_token_ids_idempotent (open_creates : bool)
    (parent_exists : string -> bool)
    (data_path target_path vocabulary_path : string)
    (tokenizer : option tokenizer_t) (normalize_digits : bool)
    (fs : gmap string string) :
  data_to_token_ids open_creates parent_exists data_path target_path vocabulary_path
    tokenizer normalize_digits
    (data_to_token_ids open_creates parent_exists data_path target_path vocabulary_path
       tokenizer normalize_digits fs).2
  = data_to_token_ids open_creates parent_exists data_path target_path vocabulary_path
      tokenizer normalize_digits fs.
Proof.
  destruct (fs !! target_path) as [old|] eqn:Ht.
  - assert (is_Some (fs !! target_path)) as Hsome by eauto.
    rewrite (data_to_token_ids_exists _ _ _ _ _ _ _ fs) by done. simpl.
    by rewrite data_to_token_ids_exists.
  - destruct (fs !! vocabulary_path) as [vocabulary|] eqn:Hv.
    + destruct (fs !! data_path) as [data|] eqn:Hd.
      * rewrite (data_to_token_ids_encodes _ _ _ _ _ _ _ fs vocabulary data)
          by done.
        rewrite gfile_write_all.
        destruct (open_creates || bool_decide (_ <> [])) eqn:Hwrites;
          [destruct (parent_exists target_path) eqn:Hdir|]; simpl.
        -- apply data_to_token_ids_exists. rewrite lookup_insert_eq. eauto.
        -- rewrite (data_to_token_ids_encodes _ _ _ _ _ _ _ fs vocabulary data)
             by done.
           by rewrite gfile_write_all, Hwrites, Hdir.
        -- rewrite (data_to_token_ids_encodes _ _ _ _ _ _ _ fs vocabulary data)
             by done.
           by rewrite gfile_write_all, Hwrites.
      * assert (is_Some (fs !! vocabulary_path)) as Hsome by eauto.
        rewrite (data_to_token_ids_no_corpus _ _ _ _ _ _ _ fs) by done. simpl.
        by rewrite data_to_token_ids_no_corpus.
    + rewrite (data_to_token_ids_no_vocabulary _ _ _ _ _ _ _ fs) by done. simpl.
      by rewrite data_to_token_ids_no_vocabulary.
Qed.

(** ** Building, loading and encoding together *)

Lemma create_vocabulary_creates (open_creates : bool)
    (parent_exists : string -> bool)
    (vocabulary_path data_path : string) (max_vocabulary_size : Z)
    (tokenizer : option tokenizer_t) (normalize_digits : bool)
    (fs : gmap string string) (content : string) :
  1 <= max_vocabulary_size ->
  parent_exists vocabulary_path = true ->
  fs !! vocabulary_path = None ->
  fs !! data_path = Some content ->
  create_vocabulary open_creates parent_exists vocabulary_path data_path
    max_vocabulary_size tokenizer normalize_digits fs
  = (Ok tt,
     <[vocabulary_path :=
         Bytes.join_empty
           (map (fun w => w +:+ Bytes.LF)
                (vocab_list_of
                   (count_corpus tokenizer normalize_digits
                      (Bytes.readlines content))
                   max_vocabulary_size))]> fs).
Proof.
  intros Hmax Hdir Hv Hd.
  rewrite (create_vocabulary_builds _ _ _ _ _ _ _ fs content) by done.
  rewrite gfile_write_all, Hdir.
  set (vocab_list := vocab_list_of _ _).
  assert (vocab_list <> []) as Hne.
  { intros Hnil. apply (f_equal length) in Hnil. unfold vocab_list in Hnil.
    rewrite vocab_list_of_length_min in Hnil by lia. simpl in Hnil. lia. }
  by rewrite (bool_decide_true _ Hne), orb_true_r.
Qed.

Lemma create_vocabulary_created (open_creates : bool)
    (parent_exists : string -> bool)
    (vocabulary_path data_path : string) (max_vocabulary_size : Z)
    (tokenizer : option tokenizer_t) (normalize_digits : bool)
    (fs : gmap string string) (content : string) :
  1 <= max_vocabulary_size ->
  parent_exists vocabulary_path = true ->
  fs !! vocabulary_path = None ->
  fs !! data_path = Some content ->
  (create_vocabulary open_creates parent_exists vocabulary_path data_path
     max_vocabulary_size tokenizer normalize_digits fs).1 = Ok tt /\
  is_Some ((create_vocabulary open_creates parent_exists vocabulary_path
              data_path max_vocabulary_size tokenizer normalize_digits fs).2
           !! vocabulary_path).
Proof.
  intros Hmax Hdir Hv Hd.
  rewrite (create_vocabulary_creates _ _ _ _ _ _ _ _ content) by done.
  simpl. rewrite lookup_insert_eq. eauto.
Qed.

(** X17: with the default tokenizer, room for at least one entry and
    the directory of [vocabulary_path] in place, [create_vocabulary]
    succeeds, and the vocabulary it has just built is loaded by
    [initialize_vocabulary] without error; the token list loaded is
    exactly the list that was written, the vocabulary list of the lines
    the reader gives for the corpus. *)
Theorem vocabulary_build_then_load (open_creates : bool)
    (parent_exists : string -> bool)
    (vocabulary_path data_path : string) (max_vocabulary_size : Z)
    (normalize_digits : bool) (fs : gmap string string) (content : string) :
  1 <= max_vocabulary_size ->
  parent_exists vocabulary_path = true ->
  fs !! vocabulary_path = None ->
  fs !! data_path = Some content ->
  (create_vocabulary open_creates parent_exists vocabulary_path data_path
     max_vocabulary_size None normalize_digits fs).1 = Ok tt /\
  exists vocab,
    initialize_vocabulary
      (create_vocabulary open_creates parent_exists vocabulary_path data_path
         max_vocabulary_size None normalize_digits fs).2 vocabulary_path
    = Ok (vocab,
          vocab_list_of
            (count_corpus None normalize_digits (Bytes.readlines content))
            max_vocabulary_size).
Proof.
  intros Hmax Hdir Hv Hd.
  destruct (create_vocabulary_created open_creates parent_exists
              vocabulary_path data_path max_vocabulary_size None
              normalize_digits fs content) as [Hok Hfile]; [done..|].
  split; [exact Hok|]. by apply vocabulary_round_trip.
Qed.

Lemma vocabulary_build_then_load_witness :
  exists vocab,
    initialize_vocabulary
      (create_vocabulary true in_cwd "vocab" "train.en" 5 None true
         {[ "train.en" := "the cat, the dog" ]}).2 "vocab"
    = Ok (vocab,
          vocab_list_of
            (count_corpus None true (Bytes.readlines "the cat, the dog")) 5).
Proof.
  apply (vocabulary_build_then_load true in_cwd "vocab" "train.en" 5 true
           {[ "train.en" := "the cat, the dog" ]} "the cat, the dog").
  - lia.
  - vm_compute. reflexivity.
  - vm_compute. reflexivity.
  - vm_compute. reflexivity.
Defined.

(** X18: the id constants agree with a built vocabulary.  With the
    default tokenizer, room for at least four entries, the directory of
    [vocabulary_path] in place and a corpus in which no word is a
    reserved symbol, the build succeeds and loading the built vocabulary
    gives [_PAD], [_GO], [_EOS] and [_UNK] the ids [PAD_ID], [GO_ID],
    [EOS_ID] and [UNK_ID], and any token has id [i] exactly when it
    stands at position [i] of the list written. *)
Theorem vocabulary_reserved_ids (open_creates : bool)
    (parent_exists : string -> bool)
    (vocabulary_path data_path : string) (max_vocabulary_size : Z)
    (normalize_digits : bool) (fs : gmap string string) (content : string) :
  4 <= max_vocabulary_size ->
  parent_exists vocabulary_path = true ->
  fs !! vocabulary_path = None ->
  fs !! data_path = Some content ->
  Forall (fun w => w ∉ corpus_words None normalize_digits
                         (Bytes.readlines content))
         _START_VOCAB ->
  (create_vocabulary open_creates parent_exists vocabulary_path data_path
     max_vocabulary_size None normalize_digits fs).1 = Ok tt /\
  exists vocab,
    initialize_vocabulary
      (create_vocabulary open_creates parent_exists vocabulary_path data_path
         max_vocabulary_size None normalize_digits fs).2 vocabulary_path
    = Ok (vocab,
          vocab_list_of
            (count_corpus None normalize_digits (Bytes.readlines content))
            max_vocabulary_size) /\
    vocab !! _PAD = Some PAD_ID /\
    vocab !! _GO = Some GO_ID /\
    vocab !! _EOS = Some EOS_ID /\
    vocab !! _UNK = Some UNK_ID /\
    forall (w : string) (i : nat),
      vocab !! w = Some (Z.of_nat i)
      <-> vocab_list_of
            (count_corpus None normalize_digits (Bytes.readlines content))
            max_vocabulary_size !! i = Some w.
Proof.
  intros Hmax Hdir Hv Hd Hreserved.
  destruct (create_vocabulary_created open_creates parent_exists
              vocabulary_path data_path max_vocabulary_size None
              normalize_digits fs content) as [Hok Hfile]; [lia|done..|].
  split; [exact Hok|].
  destruct (vocabulary_round_trip open_creates parent_exists vocabulary_path
              data_path max_vocabulary_size normalize_digits fs content
              Hv Hd Hfile)
    as [vocab Hinit].
  exists vocab. split; [exact Hinit|].
  apply initialize_vocabulary_Ok_inv in Hinit as (_ & _ & _ & ->).
  set (vocab_list := vocab_list_of _ _).
  assert (NoDup vocab_list) as Hnodup by by apply vocab_list_fresh_NoDup.
  assert (forall i : nat, (i < 4)%nat -> vocab_list !! i = _START_VOCAB !! i)
    as Hstart.
  { intros i Hi. unfold vocab_list.
    rewrite <- (vocab_list_of_start
                  (count_corpus None normalize_digits (Bytes.readlines content))
                  max_vocabulary_size Hmax).
    by rewrite lookup_take_lt. }
  repeat split.
  - apply (index_lookup_NoDup vocab_list _PAD 0 Hnodup). by rewrite Hstart by lia.
  - apply (index_lookup_NoDup vocab_list _GO 1 Hnodup). by rewrite Hstart by lia.
  - apply (index_lookup_NoDup vocab_list _EOS 2 Hnodup). by rewrite Hstart by lia.
  - apply (index_lookup_NoDup vocab_list _UNK 3 Hnodup). by rewrite Hstart by lia.
  - by apply index_lookup_NoDup.
  - by apply index_lookup_NoDup.
Qed.

Lemma vocabulary_reserved_ids_witness :
  exists vocab,
    initialize_vocabulary
      (create_vocabulary false all_dirs "vocab" "train.en" 5 None true
         {[ "train.en" := "the cat" ]}).2 "vocab"
    = Ok (vocab,
          vocab_list_of (count_corpus None true (Bytes.readlines "the cat")) 5)
    /\ vocab !! _UNK = Some UNK_ID.
Proof.
  destruct (vocabulary_reserved_ids false all_dirs "vocab" "train.en" 5 true
              {[ "train.en" := "the cat" ]} "the cat")
    as (_ & vocab & Hinit & _ & _ & _ & Hunk & _).
  - lia.
  - reflexivity.
  - vm_compute. reflexivity.
  - vm_compute. reflexivity.
  - vm_compute. repeat constructor; intros Hin; apply list_elem_of_In in Hin;
      simpl in Hin; intuition discriminate.
  - exists vocab. by split.
Defined.

(** A corpus word that is a reserved symbol takes the symbol's id away
    from it: the later line wins at load. *)
Example vocabulary_reserved_word_shadows :
  let fs : gmap string string := {[ "train.en" := "_UNK is a word" ]} in
  let built := create_vocabulary false all_dirs "vocab" "train.en" 100 None true fs in
  match initialize_vocabulary built.2 "vocab" with
  | Ok (vocab, _) => vocab !! _UNK
  | Raise _ => None
  end = Some 4.
Proof. by vm_compute. Qed.

Lemma vocab_list_of_untruncated (vocab : OrderedDict.t)
    (max_vocabulary_size : Z) :
  Z.of_nat (4 + length vocab) <= max_vocabulary_size ->
  vocab_list_of vocab max_vocabulary_size
  = _START_VOCAB ++ sorted_reverse (vocab_get vocab) (OrderedDict.keys vocab).
Proof.
  intros Hmax. unfold vocab_list_of.
  rewrite length_app, sorted_keys_length. case_match eqn:Hlen; [|done].
  rewrite Z.gtb_ltb in Hlen. apply Z.ltb_lt in Hlen. simpl in Hlen. lia.
Qed.

Lemma count_corpus_length (tokenizer : option tokenizer_t) (nd : bool)
    (corpus : list string) :
  length (count_corpus tokenizer nd corpus)
  = length (remove_dups (corpus_words tokenizer nd corpus)).
Proof.
  rewrite <- (length_map fst). apply Permutation_length, NoDup_Permutation.
  - apply count_corpus_keys_NoDup.
  - apply NoDup_remove_dups.
  - intros w. rewrite elem_of_remove_dups. apply count_corpus_keys.
Qed.

Lemma corpus_words_line (tokenizer : option tokenizer_t) (nd : bool)
    (corpus : list string) (line w : string) :
  line ∈ corpus -> w ∈ tokenize tokenizer line ->
  normalize nd w ∈ corpus_words tokenizer nd corpus.
Proof.
  unfold corpus_words. intros Hline Hw.
  induction corpus as [|l corpus IH]; [by apply elem_of_nil in Hline|].
  simpl. apply elem_of_app. apply elem_of_cons in Hline as [->|Hline].
  - left. apply list_elem_of_fmap. eauto.
  - right. by apply IH.
Qed.

(** X19: no word of the training corpus is unknown to a vocabulary that
    was built from it without truncation.  With the default tokenizer,
    the same normalisation at build and at encoding, the directory of
    [vocabulary_path] in place, and room for the four reserved symbols
    and every distinct word, the build succeeds and encoding any line
    that the reader gives for the corpus under the loaded vocabulary
    gives, token by token, an id whose position in the loaded list holds
    that token. *)
Theorem training_corpus_round_trip (open_creates : bool)
    (parent_exists : string -> bool)
    (vocabulary_path data_path : string) (max_vocabulary_size : Z)
    (normalize_digits : bool) (fs : gmap string string)
    (content line : string) :
  parent_exists vocabulary_path = true ->
  fs !! vocabulary_path = None ->
  fs !! data_path = Some content ->
  Z.of_nat (4 + length (remove_dups
                          (corpus_words None normalize_digits
                             (Bytes.readlines content))))
    <= max_vocabulary_size ->
  line ∈ Bytes.readlines content ->
  (create_vocabulary open_creates parent_exists vocabulary_path data_path
     max_vocabulary_size None normalize_digits fs).1 = Ok tt /\
  exists vocab rev_vocab,
    initialize_vocabulary
      (create_vocabulary open_creates parent_exists vocabulary_path data_path
         max_vocabulary_size None normalize_digits fs).2 vocabulary_path
    = Ok (vocab, rev_vocab) /\
    Forall2 (fun w id =>
               0 <= id /\
               rev_vocab !! Z.to_nat id = Some (normalize normalize_digits w))
            (basic_tokenizer line)
            (sentence_to_token_ids line vocab None normalize_digits).
Proof.
  intros Hdir Hv Hd Hmax Hline.
  destruct (create_vocabulary_created open_creates parent_exists
              vocabulary_path data_path max_vocabulary_size None
              normalize_digits fs content) as [Hok Hfile]; [lia|done..|].
  split; [exact Hok|].
  destruct (vocabulary_round_trip open_creates parent_exists vocabulary_path
              data_path max_vocabulary_size normalize_digits fs content
              Hv Hd Hfile)
    as [vocab Hinit].
  eexists _, _. split; [exact Hinit|].
  apply initialize_vocabulary_Ok_inv in Hinit as (_ & _ & _ & ->).
  apply (encode_decode_tokens _ line None normalize_digits).
  apply list.Forall_forall. intros w Hw.
  rewrite vocab_list_of_untruncated by (by rewrite count_corpus_length).
  apply elem_of_app. right.
  rewrite sorted_reverse_perm, count_corpus_keys.
  by apply (corpus_words_line None normalize_digits _ line).
Qed.

Lemma training_corpus_round_trip_witness :
  exists vocab rev_vocab,
    initialize_vocabulary
      (create_vocabulary false all_dirs "vocab" "train.en" 10 None true
         {[ "train.en" := "in 2024, in 1999" ]}).2 "vocab"
    = Ok (vocab, rev_vocab) /\
    Forall2 (fun w id =>
               0 <= id /\ rev_vocab !! Z.to_nat id = Some (normalize true w))
            (basic_tokenizer "in 2024, in 1999")
            (sentence_to_token_ids "in 2024, in 1999" vocab None true).
Proof.
  apply (training_corpus_round_trip false all_dirs "vocab" "train.en" 10 true
           {[ "train.en" := "in 2024, in 1999" ]} "in 2024, in 1999").
  - reflexivity.
  - vm_compute. reflexivity.
  - vm_compute. reflexivity.
  - vm_compute. discriminate.
  - vm_compute. apply list_elem_of_In. simpl. tauto.
Defined.

(** ** Cached steps and their sequences *)

Lemma and_then_Ok {A B}
    (step : gmap string string -> result A * gmap string string)
    (next : A -> gmap string string -> result B * gmap string string)
    (fs fs' : gmap string string) (a : A) :
  step fs = (Ok a, fs') -> and_then step next fs = next a fs'.
Proof. intros Hstep. unfold and_then. by rewrite Hstep. Qed.

Lemma and_then_Raise {A B}
    (step : gmap string string -> result A * gmap string string)
    (next : A -> gmap string string -> result B * gmap string string)
    (fs fs' : gmap string string) (e : exn) :
  step fs = (Raise e, fs') -> and_then step next fs = (Raise e, fs').
Proof. intros Hstep. unfold and_then. by rewrite Hstep. Qed.

Lemma ret_stable {A} (a : A) : cache_stable (ret a).
Proof. split; unfold ret; simpl; [done | by intros ???? [= -> _] | done]. Qed.

Lemma and_then_stable {A B}
    (step : gmap string string -> result A * gmap string string)
    (next : A -> gmap string string -> result B * gmap string string) :
  cache_stable step -> (forall a, cache_stable (next a)) ->
  cache_stable (and_then step next).
Proof.
  intros Hstep Hnext. split.
  - intros fs. unfold and_then.
    pose proof (stable_keeps step Hstep fs) as Hkeep.
    destruct (step fs) as [[a|e] fs1]; simpl in *; [|done].
    etransitivity; [exact Hkeep|]. apply (stable_keeps _ (Hnext a)).
  - intros fs b fs2 fs' Hrun Hsub. unfold and_then in Hrun.
    destruct (step fs) as [[a|e] fs1] eqn:Hs; [|done].
    pose proof (stable_keeps _ (Hnext a) fs1) as Hkeep. rewrite Hrun in Hkeep.
    simpl in Hkeep.
    rewrite (and_then_Ok _ _ fs' fs' a).
    + by apply (stable_done _ (Hnext a) fs1 b fs2).
    + apply (stable_done _ Hstep fs a fs1); [done|]. by etransitivity.
  - intros fs e fs2 Hrun. unfold and_then in Hrun.
    destruct (step fs) as [[a|e'] fs1] eqn:Hs.
    + pose proof (stable_keeps _ (Hnext a) fs1) as Hkeep. rewrite Hrun in Hkeep.
      simpl in Hkeep.
      rewrite (and_then_Ok _ _ fs2 fs2 a).
      * by apply (stable_failed _ (Hnext a) fs1).
      * by apply (stable_done _ Hstep fs a fs1).
    + injection Hrun as <- <-. apply and_then_Raise.
      by apply (stable_failed _ Hstep fs).
Qed.

Lemma cache_stable_idempotent {A}
    (step : gmap string string -> result A * gmap string string)
    (fs : gmap string string) :
  cache_stable step -> step (step fs).2 = step fs.
Proof.
  intros Hstep. destruct (step fs) as [[a|e] fs1] eqn:Hs; simpl.
  - by apply (stable_done _ Hstep fs a fs1).
  - by apply (stable_failed _ Hstep fs).
Qed.

Lemma create_vocabulary_stable (open_creates : bool)
    (parent_exists : string -> bool)
    (vocabulary_path data_path : string) (max_vocabulary_size : Z)
    (tokenizer : option tokenizer_t) (normalize_digits : bool) :
  cache_stable (create_vocabulary open_creates parent_exists vocabulary_path data_path
                  max_vocabulary_size tokenizer normalize_digits).
Proof.
  split.
  - apply create_vocabulary_subseteq.
  - intros fs [] fs1 fs' Hrun Hsub.
    destruct (fs' !! vocabulary_path) as [old|] eqn:Hv';
      [apply create_vocabulary_exists; eauto|].
    pose proof (create_vocabulary_subseteq open_creates parent_exists
                  vocabulary_path data_path max_vocabulary_size tokenizer
                  normalize_digits fs)
      as Hkeep.
    rewrite Hrun in Hkeep. simpl in Hkeep.
    assert (fs1 !! vocabulary_path = None) as Hv1.
    { destruct (fs1 !! vocabulary_path) as [c|] eqn:Hc; [|done].
      by rewrite (lookup_weaken _ _ _ _ Hc Hsub) in Hv'. }
    assert (fs !! vocabulary_path = None) as Hv.
    { destruct (fs !! vocabulary_path) as [c|] eqn:Hc; [|done].
      by rewrite (lookup_weaken _ _ _ _ Hc Hkeep) in Hv1. }
    destruct (fs !! data_path) as [content|] eqn:Hd.
    + assert (fs' !! data_path = Some content) as Hd'.
      { eapply lookup_weaken; [exact Hd|]. by etransitivity. }
      rewrite (create_vocabulary_builds _ _ _ _ _ _ _ fs content) in Hrun
        by done.
      rewrite (create_vocabulary_builds _ _ _ _ _ _ _ fs' content) by done.
      rewrite gfile_write_all in Hrun |- *.
      destruct (open_creates || bool_decide (_ <> [])); [|done].
      destruct (parent_exists vocabulary_path); [|done].
      injection Hrun as Hfs1.
      rewrite <- Hfs1 in Hv1. by rewrite lookup_insert_eq in Hv1.
    + by rewrite create_vocabulary_no_corpus in Hrun.
  - intros fs e fs1 Hrun.
    assert (fs1 = fs) as ->; [|done].
    unfold create_vocabulary in Hrun.
    destruct (gfile.Exists fs vocabulary_path); simpl in Hrun; [done|].
    destruct (gfile.lines fs data_path); [|by injection Hrun].
    by apply gfile_write_all_raises in Hrun as (_ & -> & _).
Qed.

Lemma initialize_vocabulary_ext (fs fs' : gmap string string)
    (vocabulary_path : string) :
  fs !! vocabulary_path = fs' !! vocabulary_path ->
  initialize_vocabulary fs vocabulary_path
  = initialize_vocabulary fs' vocabulary_path.
Proof.
  intros Heq. unfold initialize_vocabulary, gfile.Exists, gfile.lines.
  by rewrite Heq.
Qed.

Lemma data_to_token_ids_stable (open_creates : bool)
    (parent_exists : string -> bool)
    (data_path target_path vocabulary_path : string)
    (tokenizer : option tokenizer_t) (normalize_digits : bool) :
  cache_stable (data_to_token_ids open_creates parent_exists data_path target_path
                  vocabulary_path tokenizer normalize_digits).
Proof.
  split.
  - apply data_to_token_ids_subseteq.
  - intros fs [] fs1 fs' Hrun Hsub.
    destruct (fs' !! target_path) as [old|] eqn:Ht';
      [apply data_to_token_ids_exists; eauto|].
    pose proof (data_to_token_ids_subseteq open_creates parent_exists
                  data_path target_path vocabulary_path tokenizer
                  normalize_digits fs) as Hkeep.
    rewrite Hrun in Hkeep. simpl in Hkeep.
    assert (fs1 !! target_path = None) as Ht1.
    { destruct (fs1 !! target_path) as [c|] eqn:Hc; [|done].
      by rewrite (lookup_weaken _ _ _ _ Hc Hsub) in Ht'. }
    assert (fs !! target_path = None) as Ht.
    { destruct (fs !! target_path) as [c|] eqn:Hc; [|done].
      by rewrite (lookup_weaken _ _ _ _ Hc Hkeep) in Ht1. }
    destruct (fs !! vocabulary_path) as [vocabulary|] eqn:Hv;
      [|by rewrite data_to_token_ids_no_vocabulary in Hrun].
    destruct (fs !! data_path) as [data|] eqn:Hd;
      [|by rewrite data_to_token_ids_no_corpus in Hrun by eauto].
    assert (fs' !! vocabulary_path = Some vocabulary) as Hv'.
    { eapply lookup_weaken; [exact Hv|]. by etransitivity. }
    assert (fs' !! data_path = Some data) as Hd'.
    { eapply lookup_weaken; [exact Hd|]. by etransitivity. }
    rewrite (data_to_token_ids_encodes _ _ _ _ _ _ _ fs vocabulary data)
      in Hrun by done.
    rewrite (data_to_token_ids_encodes _ _ _ _ _ _ _ fs' vocabulary data)
      by done.
    rewrite gfile_write_all in Hrun |- *.
    destruct (open_creates || bool_decide (_ <> [])); [|done].
    destruct (parent_exists target_path); [|done].
    injection Hrun as Hfs1.
    rewrite <- Hfs1 in Ht1. by rewrite lookup_insert_eq in Ht1.
  - intros fs e fs1 Hrun.
    assert (fs1 = fs) as ->; [|done].
    unfold data_to_token_ids in Hrun.
    destruct (gfile.Exists fs target_path); simpl in Hrun; [done|].
    destruct (initialize_vocabulary fs vocabulary_path) as [[vocab rev]|];
      [|by injection Hrun].
    destruct (gfile.lines fs data_path); [|by injection Hrun].
    by apply gfile_write_all_raises in Hrun as (_ & -> & _).
Qed.

Lemma prepare_data_stable (open_creates : bool)
    (parent_exists : string -> bool)
    (data_dir from_train_path to_train_path from_dev_path to_dev_path : string)
    (from_vocabulary_size to_vocabulary_size : Z)
    (tokenizer : option tokenizer_t) :
  cache_stable (prepare_data open_creates parent_exists data_dir from_train_path
                  to_train_path from_dev_path to_dev_path
                  from_vocabulary_size to_vocabulary_size tokenizer).
Proof.
  unfold prepare_data.
  repeat (apply and_then_stable;
          [first [apply create_vocabulary_stable
                 |apply data_to_token_ids_stable]
          |intros _]).
  apply ret_stable.
Qed.

(** ** The pipeline *)

Lemma and_then_other {A B}
    (step : gmap string string -> result A * gmap string string)
    (next : A -> gmap string string -> result B * gmap string string)
    (fs : gmap string string) (p : string) :
  (step fs).2 !! p = fs !! p ->
  (forall a fs1, (next a fs1).2 !! p = fs1 !! p) ->
  (and_then step next fs).2 !! p = fs !! p.
Proof.
  intros Hstep Hnext. unfold and_then.
  destruct (step fs) as [[a|e] fs1]; simpl in *; [|done].
  by rewrite Hnext.
Qed.

(** X20: [prepare_data] never changes or removes a file that is there,
    whatever the arguments and whether it succeeds or fails, and the only
    paths at which files can appear are the two vocabulary paths and the
    four id-file paths. *)
Theorem prepare_data_preserves_files (open_creates : bool)
    (parent_exists : string -> bool)
    (data_dir from_train_path to_train_path from_dev_path to_dev_path : string)
    (from_vocabulary_size to_vocabulary_size : Z)
    (tokenizer : option tokenizer_t) (fs : gmap string string) :
  fs ⊆ (prepare_data open_creates parent_exists data_dir from_train_path to_train_path
          from_dev_path to_dev_path from_vocabulary_size to_vocabulary_size
          tokenizer fs).2 /\
  forall other,
    other ∉ prepare_data_outputs data_dir from_train_path to_train_path
              from_dev_path to_dev_path from_vocabulary_size
              to_vocabulary_size ->
    (prepare_data open_creates parent_exists data_dir from_train_path to_train_path
       from_dev_path to_dev_path from_vocabulary_size to_vocabulary_size
       tokenizer fs).2 !! other
    = fs !! other.
Proof.
  split; [apply (stable_keeps _ (prepare_data_stable _ _ _ _ _ _ _ _ _ _))|].
  intros other Hother. unfold prepare_data_outputs in Hother.
  repeat (apply not_elem_of_cons in Hother as [? Hother]).
  unfold prepare_data. revert fs.
  repeat (intros fs; apply and_then_other;
          [first [by apply create_vocabulary_other
                 |by apply data_to_token_ids_other]
          |clear fs; intros _]).
  done.
Qed.

Lemma prepare_data_preserves_files_witness :
  (prepare_data false all_dirs "data" "t.en" "t.de" "d.en" "d.de" 7 9 None
     {[ "t.de" := "ein Hund"; "t.en" := "a dog" ]}).2 !! "t.en"
  = Some "a dog".
Proof.
  rewrite (proj2 (prepare_data_preserves_files false all_dirs "data" "t.en" "t.de"
                    "d.en" "d.de" 7 9 None
                    {[ "t.de" := "ein Hund"; "t.en" := "a dog" ]}) "t.en").
  - vm_compute. reflexivity.
  - vm_compute. intros Hin. apply list_elem_of_In in Hin. simpl in Hin.
    intuition discriminate.
Defined.

(** X21: when the two vocabulary files and the four id files are all
    there, [prepare_data] does nothing and returns the six paths, whether
    or not any corpus exists. *)
Theorem prepare_data_cached (open_creates : bool)
    (parent_exists : string -> bool)
    (data_dir from_train_path to_train_path from_dev_path to_dev_path : string)
    (from_vocabulary_size to_vocabulary_size : Z)
    (tokenizer : option tokenizer_t) (fs : gmap string string) :
  Forall (fun p => is_Some (fs !! p))
         (prepare_data_outputs data_dir from_train_path to_train_path
            from_dev_path to_dev_path from_vocabulary_size
            to_vocabulary_size) ->
  prepare_data open_creates parent_exists data_dir from_train_path to_train_path
    from_dev_path to_dev_path from_vocabulary_size to_vocabulary_size
    tokenizer fs
  = (Ok (from_train_path +:+ ids_suffix from_vocabulary_size,
         to_train_path +:+ ids_suffix to_vocabulary_size,
         from_dev_path +:+ ids_suffix from_vocabulary_size,
         to_dev_path +:+ ids_suffix to_vocabulary_size,
         os_path_join data_dir (vocab_from_name from_vocabulary_size),
         os_path_join data_dir (vocab_to_name to_vocabulary_size)),
     fs).
Proof.
  unfold prepare_data_outputs. intros Hall.
  repeat (apply Forall_cons in Hall as [? Hall]).
  unfold prepare_data.
  rewrite (and_then_Ok _ _ fs fs tt) by by apply create_vocabulary_exists.
  rewrite (and_then_Ok _ _ fs fs tt) by by apply create_vocabulary_exists.
  rewrite (and_then_Ok _ _ fs fs tt) by by apply data_to_token_ids_exists.
  rewrite (and_then_Ok _ _ fs fs tt) by by apply data_to_token_ids_exists.
  rewrite (and_then_Ok _ _ fs fs tt) by by apply data_to_token_ids_exists.
  rewrite (and_then_Ok _ _ fs fs tt) by by apply data_to_token_ids_exists.
  done.
Qed.

Lemma prepare_data_cached_witness :
  let fs : gmap string string :=
    {[ "data/vocab9.to" := "x"; "data/vocab7.from" := "x";
       "t.de.ids9" := "1"; "t.en.ids7" := "1";
       "d.de.ids9" := "1"; "d.en.ids7" := "1" ]} in
  prepare_data false all_dirs "data" "t.en" "t.de" "d.en" "d.de" 7 9 None fs
  = (Ok ("t.en.ids7", "t.de.ids9", "d.en.ids7", "d.de.ids9",
         "data/vocab7.from", "data/vocab9.to"), fs).
Proof.
  intros fs.
  apply (prepare_data_cached false all_dirs "data" "t.en" "t.de" "d.en" "d.de" 7 9
           None fs).
  vm_compute. repeat constructor; eexists; reflexivity.
Defined.

(** X22: [prepare_data] fails fast on the first vocabulary.  With no
    vocabulary file for the target side and no target-side training
    corpus, it raises the not-found error of that corpus and writes
    nothing, whatever the state of the other five outputs and of the
    other corpora. *)
Theorem prepare_data_fails_fast (open_creates : bool)
    (parent_exists : string -> bool)
    (data_dir from_train_path to_train_path from_dev_path to_dev_path : string)
    (from_vocabulary_size to_vocabulary_size : Z)
    (tokenizer : option tokenizer_t) (fs : gmap string string) :
  fs !! os_path_join data_dir (vocab_to_name to_vocabulary_size) = None ->
  fs !! to_train_path = None ->
  prepare_data open_creates parent_exists data_dir from_train_path to_train_path
    from_dev_path to_dev_path from_vocabulary_size to_vocabulary_size
    tokenizer fs
  = (Raise (NotFoundError to_train_path), fs).
Proof.
  intros Hv Hd. unfold prepare_data. apply and_then_Raise.
  by apply create_vocabulary_no_corpus.
Qed.

Lemma prepare_data_fails_fast_witness :
  prepare_data true all_dirs "data" "t.en" "t.de" "d.en" "d.de" 7 9 None
    {[ "t.en" := "a b"; "d.en" := "a" ]}
  = (Raise (NotFoundError "t.de"), {[ "t.en" := "a b"; "d.en" := "a" ]}).
Proof.
  apply (prepare_data_fails_fast true all_dirs "data" "t.en" "t.de" "d.en" "d.de" 7 9
           None {[ "t.en" := "a b"; "d.en" := "a" ]}).
  - vm_compute. reflexivity.
  - vm_compute. reflexivity.
Defined.

(** X23: [prepare_data] is idempotent in every state and for all
    arguments, colliding paths included: a second run returns what the
    first returned, the same six paths or the same exception, and leaves
    the files as the first left them. *)
Theorem prepare_data_idempotent (open_creates : bool)
    (parent_exists : string -> bool)
    (data_dir from_train_path to_train_path from_dev_path to_dev_path : string)
    (from_vocabulary_size to_vocabulary_size : Z)
    (tokenizer : option tokenizer_t) (fs : gmap string string) :
  prepare_data open_creates parent_exists data_dir from_train_path to_train_path
    from_dev_path to_dev_path from_vocabulary_size to_vocabulary_size tokenizer
    (prepare_data open_creates parent_exists data_dir from_train_path to_train_path
       from_dev_path to_dev_path from_vocabulary_size to_vocabulary_size
       tokenizer fs).2
  = prepare_data open_creates parent_exists data_dir from_train_path to_train_path
      from_dev_path to_dev_path from_vocabulary_size to_vocabulary_size
      tokenizer fs.
Proof. apply cache_stable_idempotent, prepare_data_stable. Qed.

Lemma endswith_app (c : ascii) (s t : string) :
  t <> EmptyString -> endswith c (s +:+ t) = endswith c t.
Proof.
  intros Ht. induction s as [|d s IH]; [done|].
  rewrite bytes_app_cons. simpl. rewrite <- IH.
  destruct (s +:+ t) eqn:Hst; [|done].
  destruct s; [by rewrite bytes_app_nil in Hst | by rewrite bytes_app_cons in Hst].
Qed.

(** X24: the two vocabulary files of [prepare_data] are different files
    for every pair of sizes, equal sizes included, and both paths are
    [data_dir] followed by the file name, with one slash put between
    them unless [data_dir] is empty or already ends with a slash. *)
Theorem prepare_data_vocabulary_paths (data_dir : string)
    (from_vocabulary_size to_vocabulary_size : Z) :
  os_path_join data_dir (vocab_to_name to_vocabulary_size)
  <> os_path_join data_dir (vocab_from_name from_vocabulary_size) /\
  exists sep,
    sep = (if bool_decide (data_dir = EmptyString) || endswith "/" data_dir
           then EmptyString else "/") /\
    os_path_join data_dir (vocab_to_name to_vocabulary_size)
    = data_dir +:+ sep +:+ vocab_to_name to_vocabulary_size /\
    os_path_join data_dir (vocab_from_name from_vocabulary_size)
    = data_dir +:+ sep +:+ vocab_from_name from_vocabulary_size.
Proof.
  assert (forall name,
             startswith "/" ("vocab" +:+ name) = false) as Hrel by done.
  assert (os_path_join data_dir (vocab_to_name to_vocabulary_size)
          = data_dir +:+
            (if bool_decide (data_dir = EmptyString) || endswith "/" data_dir
             then EmptyString else "/") +:+ vocab_to_name to_vocabulary_size)
    as Hto.
  { unfold os_path_join, vocab_to_name. rewrite Hrel. by case_match. }
  assert (os_path_join data_dir (vocab_from_name from_vocabulary_size)
          = data_dir +:+
            (if bool_decide (data_dir = EmptyString) || endswith "/" data_dir
             then EmptyString else "/") +:+ vocab_from_name from_vocabulary_size)
    as Hfrom.
  { unfold os_path_join, vocab_from_name. rewrite Hrel. by case_match. }
  split; [|eauto].
  rewrite Hto, Hfrom. intros Heq.
  apply (inj (String.app _)), (inj (String.app _)) in Heq.
  unfold vocab_to_name, vocab_from_name in Heq.
  apply (inj (String.app _)) in Heq.
  apply (f_equal (endswith "o")) in Heq.
  by rewrite !endswith_app in Heq.
Qed.

Lemma ids_line_no_newline (vocab : gmap string Z)
    (tokenizer : option tokenizer_t) (nd : bool) (line : string) :
  Bytes.forallb Bytes.not_newline
    (Bytes.join " " (map Bytes.str
                       (sentence_to_token_ids line vocab tokenizer nd)))
  = true.
Proof.
  apply join_forallb; [done|].
  apply Forall_fmap, list.Forall_forall. intros id _. apply str_no_newline.
Qed.

Lemma data_to_token_ids_step (open_creates : bool)
    (parent_exists : string -> bool)
    (data_path target_path vocabulary_path : string)
    (tokenizer : option tokenizer_t) (normalize_digits : bool)
    (fs : gmap string string) (vocabulary data : string) :
  parent_exists target_path = true ->
  fs !! target_path = None ->
  fs !! vocabulary_path = Some vocabulary ->
  fs !! data_path = Some data ->
  exists fs',
    data_to_token_ids open_creates parent_exists data_path target_path
                      vocabulary_path tokenizer normalize_digits fs
    = (Ok tt, fs') /\
    (forall other, other <> target_path -> fs' !! other = fs !! other) /\
    file_lines fs' target_path
    = map (ids_line
             (dict (map (fun yx => (yx.2, yx.1))
                        (enumerate (map Bytes.strip
                                      (Bytes.readlines vocabulary)))))
             tokenizer normalize_digits)
          (Bytes.readlines data).
Proof.
  intros Hdir Ht Hv Hd.
  rewrite (data_to_token_ids_encodes _ _ _ _ _ _ _ fs vocabulary data) by done.
  set (vocab := dict _). rewrite gfile_write_all, Hdir.
  destruct (Bytes.readlines data) as [|line lines] eqn:Hlines.
  - destruct open_creates; simpl; eexists; (split; [reflexivity|]).
    + split; [by intros other Hother; rewrite lookup_insert_ne|].
      unfold file_lines. by rewrite lookup_insert_eq.
    + split; [done|]. unfold file_lines. by rewrite Ht.
  - rewrite (bool_decide_true (line :: lines <> [])), orb_true_r by done.
    eexists. split; [reflexivity|].
    split; [by intros other Hother; rewrite lookup_insert_ne|].
    unfold file_lines. rewrite lookup_insert_eq. unfold ids_line.
    apply (readlines_join_lines
             (fun line => Bytes.join " "
                (map Bytes.str
                   (sentence_to_token_ids line vocab tokenizer
                                          normalize_digits)))).
    apply list.Forall_forall. intros l _. apply ids_line_no_newline.
Qed.

(** X25: a first run of the whole pipeline.  When the four corpora
    exist, none of the six output paths holds a file, the directory of
    each output path is in place, the six output paths are pairwise
    different and both sizes are at least one, [prepare_data] succeeds
    and returns the six paths; afterwards both vocabulary files load,
    each holding the vocabulary list of the lines the reader gives for
    its training corpus, no other file has changed, and each id file
    holds, line for line and in order, the encoding of the lines the
    reader gives for its corpus under the vocabulary of its side. *)
Theorem prepare_data_builds (open_creates : bool)
    (parent_exists : string -> bool)
    (data_dir from_train_path to_train_path from_dev_path to_dev_path : string)
    (from_vocabulary_size to_vocabulary_size : Z)
    (tokenizer : option tokenizer_t) (fs : gmap string string)
    (from_train to_train from_dev to_dev : string) :
  1 <= from_vocabulary_size ->
  1 <= to_vocabulary_size ->
  fs !! from_train_path = Some from_train ->
  fs !! to_train_path = Some to_train ->
  fs !! from_dev_path = Some from_dev ->
  fs !! to_dev_path = Some to_dev ->
  NoDup (prepare_data_outputs data_dir from_train_path to_train_path
           from_dev_path to_dev_path from_vocabulary_size
           to_vocabulary_size) ->
  Forall (fun p => fs !! p = None)
         (prepare_data_outputs data_dir from_train_path to_train_path
            from_dev_path to_dev_path from_vocabulary_size
            to_vocabulary_size) ->
  Forall (fun p => parent_exists p = true)
         (prepare_data_outputs data_dir from_train_path to_train_path
            from_dev_path to_dev_path from_vocabulary_size
            to_vocabulary_size) ->
  exists fs' to_vocab to_rev_vocab from_vocab from_rev_vocab,
    prepare_data open_creates parent_exists data_dir from_train_path to_train_path
      from_dev_path to_dev_path from_vocabulary_size to_vocabulary_size
      tokenizer fs
    = (Ok (from_train_path +:+ ids_suffix from_vocabulary_size,
           to_train_path +:+ ids_suffix to_vocabulary_size,
           from_dev_path +:+ ids_suffix from_vocabulary_size,
           to_dev_path +:+ ids_suffix to_vocabulary_size,
           os_path_join data_dir (vocab_from_name from_vocabulary_size),
           os_path_join data_dir (vocab_to_name to_vocabulary_size)),
       fs') /\
    (forall other,
        other ∉ prepare_data_outputs data_dir from_train_path to_train_path
                  from_dev_path to_dev_path from_vocabulary_size
                  to_vocabulary_size ->
        fs' !! other = fs !! other) /\
    fs' !! os_path_join data_dir (vocab_to_name to_vocabulary_size)
    = Some (Bytes.join_empty
              (map (fun w => w +:+ Bytes.LF)
                   (vocab_list_of
                      (count_corpus tokenizer true (Bytes.readlines to_train))
                      to_vocabulary_size))) /\
    fs' !! os_path_join data_dir (vocab_from_name from_vocabulary_size)
    = Some (Bytes.join_empty
              (map (fun w => w +:+ Bytes.LF)
                   (vocab_list_of
                      (count_corpus tokenizer true (Bytes.readlines from_train))
                      from_vocabulary_size))) /\
    initialize_vocabulary fs'
      (os_path_join data_dir (vocab_to_name to_vocabulary_size))
    = Ok (to_vocab, to_rev_vocab) /\
    initialize_vocabulary fs'
      (os_path_join data_dir (vocab_from_name from_vocabulary_size))
    = Ok (from_vocab, from_rev_vocab) /\
    file_lines fs' (to_train_path +:+ ids_suffix to_vocabulary_size)
    = map (ids_line to_vocab tokenizer true) (Bytes.readlines to_train) /\
    file_lines fs' (from_train_path +:+ ids_suffix from_vocabulary_size)
    = map (ids_line from_vocab tokenizer true) (Bytes.readlines from_train) /\
    file_lines fs' (to_dev_path +:+ ids_suffix to_vocabulary_size)
    = map (ids_line to_vocab tokenizer true) (Bytes.readlines to_dev) /\
    file_lines fs' (from_dev_path +:+ ids_suffix from_vocabulary_size)
    = map (ids_line from_vocab tokenizer true) (Bytes.readlines from_dev).
Proof.
  intros Hfsize Htsize Hft Htt Hfd Htd Hnodup Habsent Hdirs.
  unfold prepare_data, prepare_data_outputs in *.
  set (tv := os_path_join data_dir (vocab_to_name to_vocabulary_size)) in *.
  set (fv := os_path_join data_dir (vocab_from_name from_vocabulary_size)) in *.
  set (tti := to_train_path +:+ ids_suffix to_vocabulary_size) in *.
  set (fti := from_train_path +:+ ids_suffix from_vocabulary_size) in *.
  set (tdi := to_dev_path +:+ ids_suffix to_vocabulary_size) in *.
  set (fdi := from_dev_path +:+ ids_suffix from_vocabulary_size) in *.
  clearbody tv fv tti fti tdi fdi.
  repeat (apply Forall_cons in Habsent as [? Habsent]).
  repeat (apply Forall_cons in Hdirs as [? Hdirs]).
  repeat (apply NoDup_cons in Hnodup as [? Hnodup]).
  repeat match goal with
         | H : _ ∉ _ :: _ |- _ => apply not_elem_of_cons in H as [? H]
         end.
  (* the two vocabularies *)
  rewrite (and_then_Ok _ _ fs _ tt
             (create_vocabulary_creates open_creates parent_exists tv
                to_train_path to_vocabulary_size tokenizer true fs to_train
                ltac:(done) ltac:(done) ltac:(done) ltac:(done))).
  set (tvc := Bytes.join_empty _).
  set (fs1 := <[tv := tvc]> fs).
  assert (forall p, p <> tv -> fs1 !! p = fs !! p) as Hfs1
    by (intros p Hp; unfold fs1; by rewrite lookup_insert_ne).
  assert (fs1 !! tv = Some tvc) as Htv1 by apply lookup_insert_eq.
  clearbody fs1.
  rewrite (and_then_Ok _ _ fs1 _ tt
             (create_vocabulary_creates open_creates parent_exists fv
                from_train_path from_vocabulary_size tokenizer true fs1
                from_train
                ltac:(done) ltac:(done)
                ltac:(rewrite Hfs1 by congruence; done)
                ltac:(rewrite Hfs1 by congruence; done))).
  set (fvc := Bytes.join_empty _).
  set (fs2 := <[fv := fvc]> fs1).
  assert (forall p, p <> fv -> fs2 !! p = fs1 !! p) as Hfs2
    by (intros p Hp; unfold fs2; by rewrite lookup_insert_ne).
  assert (fs2 !! fv = Some fvc) as Hfv2 by apply lookup_insert_eq.
  clearbody fs2.
  (* the four id files *)
  destruct (data_to_token_ids_step open_creates parent_exists to_train_path tti tv
              tokenizer true fs2 tvc to_train)
    as (fs3 & Hrun3 & Hfs3 & Hlines3);
    [rewrite ?Hfs2, ?Hfs1 by congruence; done..|].
  rewrite (and_then_Ok _ _ fs2 _ tt Hrun3).
  destruct (data_to_token_ids_step open_creates parent_exists from_train_path fti fv
              tokenizer true fs3 fvc from_train)
    as (fs4 & Hrun4 & Hfs4 & Hlines4);
    [rewrite ?Hfs3, ?Hfs2, ?Hfs1 by congruence; done..|].
  rewrite (and_then_Ok _ _ fs3 _ tt Hrun4).
  destruct (data_to_token_ids_step open_creates parent_exists to_dev_path tdi tv
              tokenizer true fs4 tvc to_dev)
    as (fs5 & Hrun5 & Hfs5 & Hlines5);
    [rewrite ?Hfs4, ?Hfs3, ?Hfs2, ?Hfs1 by congruence; done..|].
  rewrite (and_then_Ok _ _ fs4 _ tt Hrun5).
  destruct (data_to_token_ids_step open_creates parent_exists from_dev_path fdi fv
              tokenizer true fs5 fvc from_dev)
    as (fs6 & Hrun6 & Hfs6 & Hlines6);
    [rewrite ?Hfs5, ?Hfs4, ?Hfs3, ?Hfs2, ?Hfs1 by congruence; done..|].
  rewrite (and_then_Ok _ _ fs5 _ tt Hrun6).
  assert (fs6 !! tv = Some tvc) as Htv6
    by (rewrite ?Hfs6, ?Hfs5, ?Hfs4, ?Hfs3, ?Hfs2 by congruence; done).
  assert (fs6 !! fv = Some fvc) as Hfv6
    by (rewrite ?Hfs6, ?Hfs5, ?Hfs4, ?Hfs3 by congruence; done).
  eexists fs6, _, _, _, _. split; [reflexivity|].
  split.
  { intros other Hother.
    repeat (apply not_elem_of_cons in Hother as [? Hother]).
    rewrite ?Hfs6, ?Hfs5, ?Hfs4, ?Hfs3, ?Hfs2, ?Hfs1 by congruence. done. }
  split; [exact Htv6|]. split; [exact Hfv6|].
  split; [by apply initialize_vocabulary_loads|].
  split; [by apply initialize_vocabulary_loads|].
  unfold file_lines in *.
  repeat split.
  - rewrite ?Hfs6, ?Hfs5, ?Hfs4 by congruence. exact Hlines3.
  - rewrite ?Hfs6, ?Hfs5 by congruence. exact Hlines4.
  - rewrite ?Hfs6 by congruence. exact Hlines5.
  - exact Hlines6.
Qed.

Lemma prepare_data_builds_witness :
  let fs : gmap string string :=
    {[ "t.en" := "a dog" +:+ Bytes.LF +:+ "a cat" +:+ Bytes.LF;
       "t.de" := "ein Hund" +:+ Bytes.LF +:+ "eine Katze" +:+ Bytes.LF;
       "d.en" := "a cat" +:+ Bytes.LF;
       "d.de" := "ein Hund" +:+ Bytes.LF ]} in
  (prepare_data false all_dirs "data" "t.en" "t.de" "d.en" "d.de" 7 9 None fs).1
  = Ok ("t.en.ids7", "t.de.ids9", "d.en.ids7", "d.de.ids9",
        "data/vocab7.from", "data/vocab9.to").
Proof.
  intros fs.
  destruct (prepare_data_builds false all_dirs "data" "t.en" "t.de" "d.en" "d.de" 7 9
              None fs (fs !!! "t.en") (fs !!! "t.de") (fs !!! "d.en")
              (fs !!! "d.de"))
    as (fs' & ? & ? & ? & ? & Hrun & _).
  - lia.
  - lia.
  - vm_compute. reflexivity.
  - vm_compute. reflexivity.
  - vm_compute. reflexivity.
  - vm_compute. reflexivity.
  - vm_compute. apply NoDup_ListNoDup.
    repeat constructor; simpl; intuition discriminate.
  - vm_compute. repeat constructor.
  - repeat constructor.
  - rewrite Hrun. vm_compute. reflexivity.
Defined.

(** The first run on a small pair of corpora, evaluated. *)
Example prepare_data_example :
  let fs : gmap string string :=
    {[ "t.en" := "a dog" +:+ Bytes.LF +:+ "a cat" +:+ Bytes.LF;
       "t.de" := "ein Hund" +:+ Bytes.LF +:+ "eine Katze" +:+ Bytes.LF;
       "d.en" := "a cat" +:+ Bytes.LF;
       "d.de" := "ein Hund" +:+ Bytes.LF ]} in
  let after :=
    (prepare_data false all_dirs "data" "t.en" "t.de" "d.en" "d.de" 7 9 None fs).2 in
  file_lines after "data/vocab7.from"
  = map (fun w => w +:+ Bytes.LF) [_PAD; _GO; _EOS; _UNK; "a"; "dog"; "cat"] /\
  file_lines after "t.en.ids7" = ["4 5" +:+ Bytes.LF; "4 6" +:+ Bytes.LF] /\
  file_lines after "d.de.ids9" = ["4 5" +:+ Bytes.LF] /\
  file_lines after "d.en.ids7" = ["4 6" +:+ Bytes.LF].
Proof. repeat split; by vm_compute. Qed.

(** The same run without the directory [data]: the first vocabulary
    cannot be created, the run ends there and no file is written. *)
Example prepare_data_missing_directory :
  let fs : gmap string string :=
    {[ "t.en" := "a dog" +:+ Bytes.LF +:+ "a cat" +:+ Bytes.LF;
       "t.de" := "ein Hund" +:+ Bytes.LF +:+ "eine Katze" +:+ Bytes.LF;
       "d.en" := "a cat" +:+ Bytes.LF;
       "d.de" := "ein Hund" +:+ Bytes.LF ]} in
  prepare_data false in_cwd "data" "t.en" "t.de" "d.en" "d.de" 7 9 None fs
  = (Raise (NotFoundError "data/vocab9.to"), fs).
Proof. by vm_compute. Qed.
